(** * Echo State Network notebook (reservoir.ipynb): shallow embedding

    The notebook is numeric Python over three external libraries (NumPy,
    PyTorch, scikit-learn).  The embedding keeps the control flow, the
    exceptions, the mutable network object and the global random generator
    of the notebook, and takes the library primitives as interfaces:

    - [Float]: the scalar arithmetic of float32/float64 values;
    - [Torch]: the global generator, [torch.rand] and [torch.linalg.eig];
    - [Sklearn]: the [Ridge] estimator and [mean_squared_error].

    Structural properties are proved for every implementation of the
    interfaces.  Properties that are identities of real arithmetic are proved
    on the instance [RFloat], where a float is an exact real number (no
    rounding). *)

From Stdlib Require Import List ZArith QArith Qreals Reals Lia Lra Bool.
Import ListNotations.

Set Implicit Arguments.

(** ** Python results *)

(** The exceptions that the notebook's statements and its libraries raise,
    and the two errors that the specification names: [DegenerateMatrix],
    which no statement of the notebook raises, and [DimensionMismatch],
    which only the readout modelled from the specification raises. *)
Inductive exn : Type :=
| IndexError
| ValueError
| RuntimeError
| DegenerateMatrix
| DimensionMismatch.

Inductive result (A : Type) : Type :=
| Ok (a : A)
| Raise (e : exn).

Arguments Ok {A} a.
Arguments Raise {A} e.

Definition rbind {A B : Type} (r : result A) (k : A -> result B) : result B :=
  match r with
  | Ok a => k a
  | Raise e => Raise e
  end.

Declare Scope res_scope.
Delimit Scope res_scope with res.
Notation "x <- c ;; k" := (rbind c (fun x => k))
  (at level 61, c at next level, right associativity) : res_scope.

(** A [for] loop whose body may raise: the accumulator is the loop state. *)
Fixpoint for_each {A S : Type} (body : S -> A -> result S) (xs : list A) (s : S)
  : result S :=
  match xs with
  | [] => Ok s
  | x :: xs' => rbind (body s x) (for_each body xs')
  end.

(** [range(lo, hi)] over Python integers. *)
Definition range (lo hi : Z) : list Z :=
  map (fun k => (lo + Z.of_nat k)%Z) (seq 0 (Z.to_nat (hi - lo))).

(** ** Scalar arithmetic *)

Class Float (F : Type) : Type := {
  (** the float denoted by a decimal or integer literal *)
  flit : Q -> F;
  fadd : F -> F -> F;
  fsub : F -> F -> F;
  fmul : F -> F -> F;
  fdiv : F -> F -> F;
  (** [x ** n] for an integer exponent *)
  fpow : F -> Z -> F;
  ftanh : F -> F;
  (** Python's [>] on two scalars, as used by the builtin [max] *)
  fgtb : F -> F -> bool;
  (** conversion to [dtype=torch.float32] *)
  to_float32 : F -> F;
  (** the order of the values denoted, used in statements only *)
  flt : F -> F -> Prop
}.

Section Arrays.

Context {F : Type} {FF : Float F}.

Local Open Scope res_scope.

(** ** One-dimensional arrays *)

(** [np.zeros(T)]: a negative dimension is refused. *)
Definition np_zeros (T : Z) : result (list F) :=
  if (T <? 0)%Z then Raise ValueError
  else Ok (repeat (flit 0) (Z.to_nat T)).

(** The position an index denotes: a negative index counts from the end. *)
Definition index_of (len : nat) (i : Z) : option nat :=
  let n := Z.of_nat len in
  if ((0 <=? i) && (i <? n))%Z then Some (Z.to_nat i)
  else if ((- n <=? i) && (i <? 0))%Z then Some (Z.to_nat (i + n))
  else None.

(** [x[i]] *)
Definition getitem (x : list F) (i : Z) : result F :=
  match index_of (length x) i with
  | Some k => Ok (nth k x (flit 0))
  | None => Raise IndexError
  end.

Fixpoint update (x : list F) (k : nat) (v : F) : list F :=
  match x, k with
  | [], _ => []
  | _ :: x', O => v :: x'
  | a :: x', S k' => a :: update x' k' v
  end.

(** [x[i] = v] *)
Definition setitem (x : list F) (i : Z) (v : F) : result (list F) :=
  match index_of (length x) i with
  | Some k => Ok (update x k v)
  | None => Raise IndexError
  end.

(** ** The Mackey-Glass generator *)

(** The body of the loop of [mackey_glass] at step [t], on the array [x]. *)
Definition mackey_glass_step (tau n : Z) (beta gamma : F) (x : list F) (t : Z)
  : result (list F) :=
  if (t - tau >=? 0)%Z then
    xp <- getitem x (t - 1) ;;
    xd <- getitem x (t - tau) ;;
    setitem x t
      (fsub (fadd xp (fdiv (fmul beta xd) (fadd (flit 1) (fpow xd n))))
            (fmul gamma xp))
  else
    xp <- getitem x (t - 1) ;;
    setitem x t xp.

Definition mackey_glass (T tau n : Z) (beta gamma : F) : result (list F) :=
  x <- np_zeros T ;;
  x <- setitem x 0 (flit (12 # 10)) ;;
  for_each (mackey_glass_step tau n beta gamma) (range 1 T) x.

End Arrays.

(** ** Two-dimensional tensors *)

(** A tensor of shape [(nrows, ncols)], stored by rows. *)
Record matrix (F : Type) : Type := Matrix {
  nrows : nat;
  ncols : nat;
  rows : list (list F)
}.

Arguments Matrix {F} nrows ncols rows.

(** Every row is present and has the declared width. *)
Definition well_shaped {F : Type} (M : matrix F) : Prop :=
  length (rows M) = nrows M /\ Forall (fun r => length r = ncols M) (rows M).

(** The tensor of shape [(r, c)] whose entry at [(i, j)] is [f i j]. *)
Definition tabulate {F : Type} (r c : nat) (f : nat -> nat -> F) : matrix F :=
  Matrix r c (map (fun i => map (f i) (seq 0 c)) (seq 0 r)).

(** An elementwise operation keeps the shape. *)
Definition mmap {F : Type} (f : F -> F) (M : matrix F) : matrix F :=
  Matrix (nrows M) (ncols M) (map (map f) (rows M)).

(** ** The libraries behind the notebook *)

Class Torch (F : Type) : Type := {
  (** the state of the global generator *)
  Generator : Type;
  (** the state [torch.manual_seed(seed)] installs *)
  manual_seed : Z -> Generator;
  (** [torch.rand((r, c))]: the values drawn, by position, and the
      generator advanced *)
  rand : Generator -> nat -> nat -> (nat -> nat -> F) * Generator;
  (** the eigenvalues [torch.linalg.eig] returns for a square matrix, each
      a complex number given by its real and imaginary parts *)
  linalg_eig : matrix F -> list (F * F);
  (** [abs] of a complex scalar *)
  cabs : F * F -> F
}.

Class Sklearn (F : Type) : Type := {
  (** a [Ridge] estimator object: its hyperparameters and fitted state *)
  Ridge : Type;
  (** [Ridge(alpha=a)] *)
  Ridge_new : F -> Ridge;
  (** [est.fit(X, y)]: the estimator after the fit, or the exception *)
  fit : Ridge -> list (list F) -> list F -> result Ridge;
  (** [est.predict(X)] *)
  predict : Ridge -> list (list F) -> result (list F);
  (** [mean_squared_error(y_true, y_pred)] *)
  mean_squared_error : list F -> list F -> result F
}.

Section Network.

Context {F : Type} {FF : Float F} {TT : Torch F} {SK : Sklearn F}.

Local Open Scope res_scope.

(** ** Tensor operations of the forward pass *)

(** [torch.zeros(n)] *)
Definition torch_zeros (n : nat) : list F := repeat (flit 0) n.

(** The inner product of a row with a vector of the same length. *)
Definition dot (r v : list F) : F :=
  fold_left (fun acc p => fadd acc (fmul (fst p) (snd p))) (combine r v) (flit 0).

(** [M @ v] for a matrix and a vector: the sizes must agree. *)
Definition matvec (M : matrix F) (v : list F) : result (list F) :=
  if Nat.eqb (ncols M) (length v) then Ok (map (fun r => dot r v) (rows M))
  else Raise RuntimeError.

(** [a + b] on vectors: equal lengths add pointwise, a vector of length one
    is broadcast, any other pair of lengths is refused. *)
Definition vadd (a b : list F) : result (list F) :=
  if Nat.eqb (length a) (length b) then
    Ok (map (fun p => fadd (fst p) (snd p)) (combine a b))
  else match a, b with
       | [x], _ => Ok (map (fun y => fadd x y) b)
       | _, [y] => Ok (map (fun x => fadd x y) a)
       | _, _ => Raise RuntimeError
       end.

(** [torch.linalg.eig(M)]: only square matrices are accepted. *)
Definition torch_linalg_eig (M : matrix F) : result (list (F * F)) :=
  if Nat.eqb (nrows M) (ncols M) then Ok (linalg_eig M) else Raise RuntimeError.

(** Python's builtin [max] on a sequence: the first element, replaced by
    each later element that compares greater; an empty sequence is refused. *)
Fixpoint max_from (best : F) (xs : list F) : F :=
  match xs with
  | [] => best
  | x :: xs' => max_from (if fgtb x best then x else best) xs'
  end.

Definition py_max (xs : list F) : result F :=
  match xs with
  | [] => Raise ValueError
  | x :: xs' => Ok (max_from x xs')
  end.

(** ** The network object and the interpreter state *)

Record EchoStateNetwork : Type := ESN {
  input_dim : nat;
  reservoir_size : nat;
  output_dim : nat;
  spectral_radius : F;
  alpha : F;
  Win : matrix F;
  W : matrix F;
  readout : Ridge
}.

(** A line printed by [train_esn]: trial number, number of trials, train
    and test error. *)
Inductive line : Type :=
| TrialLine (k n : nat) (mse test_mse : F).

(** What the notebook's functions read and write besides their arguments:
    the network object, the two global generators and the output. *)
Record Machine : Type := Mach {
  self : EchoStateNetwork;
  generator : Generator;
  numpy_seed : option Z;
  stdout : list line
}.

Definition set_Win (M : matrix F) (m : Machine) : Machine :=
  let s := self m in
  Mach (ESN (input_dim s) (reservoir_size s) (output_dim s) (spectral_radius s)
            (alpha s) M (W s) (readout s))
       (generator m) (numpy_seed m) (stdout m).

Definition set_W (M : matrix F) (m : Machine) : Machine :=
  let s := self m in
  Mach (ESN (input_dim s) (reservoir_size s) (output_dim s) (spectral_radius s)
            (alpha s) (Win s) M (readout s))
       (generator m) (numpy_seed m) (stdout m).

Definition set_readout (r : Ridge) (m : Machine) : Machine :=
  let s := self m in
  Mach (ESN (input_dim s) (reservoir_size s) (output_dim s) (spectral_radius s)
            (alpha s) (Win s) (W s) r)
       (generator m) (numpy_seed m) (stdout m).

Definition set_generator (g : Generator) (m : Machine) : Machine :=
  Mach (self m) g (numpy_seed m) (stdout m).

Definition set_numpy_seed (z : Z) (m : Machine) : Machine :=
  Mach (self m) (generator m) (Some z) (stdout m).

Definition print (l : line) (m : Machine) : Machine :=
  Mach (self m) (generator m) (numpy_seed m) (stdout m ++ [l]).

(** A statement: it runs on a machine and leaves a result, or the exception
    raised, together with the machine as it is then. *)
Definition Py (A : Type) : Type := Machine -> result A * Machine.

Definition ret {A : Type} (a : A) : Py A := fun m => (Ok a, m).

Definition bind {A B : Type} (c : Py A) (k : A -> Py B) : Py B :=
  fun m => match c m with
           | (Ok a, m') => k a m'
           | (Raise e, m') => (Raise e, m')
           end.

Definition lift {A : Type} (r : result A) : Py A := fun m => (r, m).

Definition modify (f : Machine -> Machine) : Py unit := fun m => (Ok tt, f m).

Definition gets {A : Type} (f : Machine -> A) : Py A := fun m => (Ok (f m), m).

End Network.

Declare Scope py_scope.
Delimit Scope py_scope with py.
Notation "x <- c ;; k" := (bind c (fun x => k))
  (at level 61, c at next level, right associativity) : py_scope.
Notation "c ;; k" := (bind c (fun _ => k))
  (at level 61, right associativity) : py_scope.

Section Methods.

Context {F : Type} {FF : Float F} {TT : Torch F} {SK : Sklearn F}.

(** ** EchoStateNetwork.initialize_weights and adjust_spectral_radius *)

(** [torch.rand((r, c))] on the global generator. *)
Definition torch_rand (r c : nat) : Py (matrix F) :=
  fun m => let (f, g) := rand (generator m) r c in
           (Ok (tabulate r c f), set_generator g m).

(** [t * 2 - 1], elementwise. *)
Definition times2_minus1 (M : matrix F) : matrix F :=
  mmap (fun x => fsub (fmul x (flit 2)) (flit 1)) M.

(** [t *= c], elementwise. *)
Definition mscale (c : F) (M : matrix F) : matrix F :=
  mmap (fun x => fmul x c) M.

(** [rhoW = max(abs(eigenvalues))] for the eigenvalues of [M]. *)
Definition rho (M : matrix F) : result F :=
  (eigenvalues <- torch_linalg_eig M ;;
   py_max (map cabs eigenvalues))%res.

Definition adjust_spectral_radius : Py unit :=
  (w <- gets (fun m => W (self m)) ;;
   rhoW <- lift (rho w) ;;
   sr <- gets (fun m => spectral_radius (self m)) ;;
   modify (set_W (mscale (fdiv sr rhoW) w)))%py.

Definition initialize_weights : Py unit :=
  (rs <- gets (fun m => reservoir_size (self m)) ;;
   idim <- gets (fun m => input_dim (self m)) ;;
   win <- torch_rand rs idim ;;
   modify (set_Win (times2_minus1 win)) ;;
   w <- torch_rand rs rs ;;
   modify (set_W (times2_minus1 w)) ;;
   adjust_spectral_radius)%py.

(** ** EchoStateNetwork.train *)

(** One pass of the loop body: the new state from the old state and the
    input [x = train_data[t]]. *)
Definition reservoir_step (net : EchoStateNetwork) (state : list F) (x : F)
  : result (list F) :=
  (let u := [to_float32 x] in
   a <- matvec (Win net) u ;;
   b <- matvec (W net) state ;;
   s <- vadd a b ;;
   Ok (map ftanh s))%res.

(** The loop of [train]: the pair is the variables [state] and [states]. *)
Definition train_loop_body (net : EchoStateNetwork)
  (vars : list F * list (list F)) (x : F) : result (list F * list (list F)) :=
  (state <- reservoir_step net (fst vars) x ;;
   Ok (state, snd vars ++ [state]))%res.

(** Lines 51-57 of [train]: the list [states] when the loop ends. *)
Definition run_states (net : EchoStateNetwork) (train_data : list F)
  : result (list (list F)) :=
  (vars <- for_each (train_loop_body net) train_data
                    (torch_zeros (reservoir_size net), []) ;;
   Ok (snd vars))%res.

(** [est.fit(X, y)] on the network's estimator, which it updates. *)
Definition readout_fit (X : list (list F)) (y : list F) : Py unit :=
  (est <- gets (fun m => readout (self m)) ;;
   est' <- lift (fit est X y) ;;
   modify (set_readout est'))%py.

Definition readout_predict (X : list (list F)) : Py (list F) :=
  (est <- gets (fun m => readout (self m)) ;;
   lift (predict est X))%py.

Definition train (train_data target_data : list F) : Py (list F) :=
  (net <- gets self ;;
   states <- lift (run_states net train_data) ;;
   readout_fit states target_data ;;
   predictions <- readout_predict states ;;
   ret predictions)%py.

(** ** EchoStateNetwork.__init__ *)

(** The object before [initialize_weights] has run: [Win] and [W] are not
    set yet (empty tensors stand for them).  The estimator is created after
    the weights, which [initialize_weights] cannot observe. *)
Definition blank (input_dim reservoir_size output_dim : nat)
  (spectral_radius alpha : F) : EchoStateNetwork :=
  ESN input_dim reservoir_size output_dim spectral_radius alpha
      (Matrix 0 0 []) (Matrix 0 0 []) (Ridge_new alpha).

Definition EchoStateNetwork_init (input_dim reservoir_size output_dim : nat)
  (spectral_radius alpha : F) (g : Generator) (seed : option Z)
  (out : list line) : result unit * Machine :=
  initialize_weights
    (Mach (blank input_dim reservoir_size output_dim spectral_radius alpha)
          g seed out).

(** ** train_esn *)

(** A [for] loop of statements. *)
Fixpoint py_for {A S : Type} (body : S -> A -> Py S) (xs : list A) (s : S)
  : Py S :=
  match xs with
  | [] => ret s
  | x :: xs' => bind (body s x) (py_for body xs')
  end.

(** One trial: the pair is the lists [results] and [test_results]. *)
Definition trial_body (train_data target_data test_data test_target : list F)
  (num_trials : nat) (vars : list F * list F) (trial : nat)
  : Py (list F * list F) :=
  (modify (set_generator (manual_seed (Z.of_nat trial))) ;;
   modify (set_numpy_seed (Z.of_nat trial)) ;;
   initialize_weights ;;
   predictions <- train train_data target_data ;;
   mse <- lift (mean_squared_error target_data predictions) ;;
   let results := fst vars ++ [mse] in
   test_predictions <- train test_data test_target ;;
   test_mse <- lift (mean_squared_error test_target test_predictions) ;;
   let test_results := snd vars ++ [test_mse] in
   modify (print (TrialLine (trial + 1) num_trials mse test_mse)) ;;
   ret (results, test_results))%py.

Definition train_esn (train_data target_data test_data test_target : list F)
  (num_trials : nat) : Py (list F * list F) :=
  py_for (trial_body train_data target_data test_data test_target num_trials)
         (seq 0 num_trials) ([], []).

End Methods.

(** * Statements of the properties *)

(** ** The equations of the Mackey-Glass sequence *)

Section SequenceStatements.

Context {F : Type} {FF : Float F}.

(** [x[t]] for an index inside the array. *)
Definition item (x : list F) (t : Z) : F := nth (Z.to_nat t) x (flit 0).

(** The delayed update of [mackey_glass], as a function of [x[t-1]] and
    [x[t-tau]]. *)
Definition delayed_update (n : Z) (beta gamma : F) (xp xd : F) : F :=
  fsub (fadd xp (fdiv (fmul beta xd) (fadd (flit 1) (fpow xd n))))
       (fmul gamma xp).

(** The three equations on a sequence [x] of length [T]: the first element,
    the warm-up below [tau], the recurrence from [tau] on. *)
Definition first_element (x : list F) : Prop :=
  item x 0 = flit (12 # 10).

Definition warm_up (x : list F) (T tau : Z) : Prop :=
  forall t : Z, (1 <= t < tau)%Z -> (t < T)%Z -> item x t = item x (t - 1).

Definition recurrence (x : list F) (T tau n : Z) (beta gamma : F) : Prop :=
  forall t : Z, (tau <= t < T)%Z ->
    item x t = delayed_update n beta gamma (item x (t - 1)) (item x (t - tau)).

(** What the generator is said to return for the length [T]: a sequence of
    that length on which the three equations hold. *)
Definition mackey_glass_claim (T tau n : Z) (beta gamma : F) : Prop :=
  exists x : list F,
    mackey_glass T tau n beta gamma = Ok x /\
    Z.of_nat (length x) = T /\
    first_element x /\
    warm_up x T tau /\
    recurrence x T tau n beta gamma.

(** The equations up to (not including) index [k]: the loop invariant. *)
Definition generated_up_to (x : list F) (T tau n : Z) (beta gamma : F) (k : Z)
  : Prop :=
  Z.of_nat (length x) = T /\ first_element x /\
  warm_up x k tau /\ recurrence x k tau n beta gamma.

End SequenceStatements.

(** ** Exact real arithmetic *)

Definition Rgtb (a b : R) : bool := if Rgt_dec a b then true else false.

(** Floats read as the real numbers they denote, every operation exact. *)
#[export] Instance RFloat : Float R := {
  flit := Q2R;
  fadd := Rplus;
  fsub := Rminus;
  fmul := Rmult;
  fdiv := Rdiv;
  fpow := powerRZ;
  ftanh := tanh;
  fgtb := Rgtb;
  to_float32 := fun x => x;
  flt := Rlt
}.

(** ** Binary32 arithmetic *)

(** The finite numbers of IEEE binary32 ([torch.float32]), read as the reals
    they denote: 24 significant bits, the least exponent -149, rounding to
    nearest with ties to the even significand.  Every operation returns its
    exact result rounded.  Infinities and nan are not values here: an
    overflow and a division by zero have no counterpart in this
    arithmetic. *)

Definition pow2 (e : Z) : R := powerRZ 2 e.

(** The exponent of a number that is not zero: the integer [e] with
    [2^e <= |x| < 2^(e+1)]. *)
Definition floor_log2 (x : R) : Z := Zfloor (ln (Rabs x) / ln 2).

(** The nearest integer, the even one of the two when they are equally
    near. *)
Definition nearest_even (x : R) : Z :=
  let f := Zfloor x in
  if Rlt_dec (x - IZR f) (1 / 2) then f
  else if Rlt_dec (1 / 2) (x - IZR f) then (f + 1)%Z
  else if Z.even f then f else (f + 1)%Z.

(** The binary32 number nearest to [x]. *)
Definition round32 (x : R) : R :=
  if Req_dec_T x 0 then 0
  else let e := Z.max (floor_log2 x - 23) (-149) in
       IZR (nearest_even (x * pow2 (- e))) * pow2 e.

Definition Binary32 : Float R := {|
  flit := fun q => round32 (Q2R q);
  fadd := fun a b => round32 (a + b);
  fsub := fun a b => round32 (a - b);
  fmul := fun a b => round32 (a * b);
  fdiv := fun a b => round32 (a / b);
  fpow := fun a n => round32 (powerRZ a n);
  ftanh := fun a => round32 (tanh a);
  fgtb := Rgtb;
  to_float32 := round32;
  flt := Rlt
|}.

(** ** The forward pass *)

Section ForwardPassStatements.

Context {F : Type} {FF : Float F} {TT : Torch F} {SK : Sklearn F}.

(** The shapes of the data model, with a scalar input: [Win] is
    [reservoir_size x 1] and [W] is [reservoir_size x reservoir_size]. *)
Definition forward_shapes (net : EchoStateNetwork) : Prop :=
  length (rows (Win net)) = reservoir_size net /\
  ncols (Win net) = 1%nat /\
  length (rows (W net)) = reservoir_size net /\
  ncols (W net) = reservoir_size net.

(** The recurrence unrolled over the inputs [xs], from the state [s]. *)
Definition unroll (net : EchoStateNetwork) (xs : list F) (s : list F)
  : result (list F) :=
  for_each (reservoir_step net) xs s.

(** The tensors of the data model: [Win] and [W] have the shapes above
    and every row has as many entries as the tensor has columns. *)
Definition tensor_shapes (net : EchoStateNetwork) : Prop :=
  forward_shapes net /\ well_shaped (Win net) /\ well_shaped (W net).

(** *** The recurrence written out, entry by entry *)

(** The entry of a matrix in row [i] and column [j]. *)
Definition entry (M : matrix F) (i j : nat) : F :=
  nth j (nth i (rows M) []) (flit 0).

(** The sum [term 0 + ... + term (n - 1)], accumulated from zero in this
    order. *)
Fixpoint sum_of (n : nat) (term : nat -> F) : F :=
  match n with
  | O => flit 0
  | S k => fadd (sum_of k term) (term k)
  end.

(** Component [i] of the product [M . v]: the sum over the columns [j] of
    [M[i][j] * v[j]]. *)
Definition product_at (M : matrix F) (v : list F) (i : nat) : F :=
  sum_of (ncols M) (fun j => fmul (entry M i j) (nth j v (flit 0))).

(** Component [i] of [tanh(Win . [x] + W . state)], the input [x] read as
    a float32. *)
Definition update_at (net : EchoStateNetwork) (state : list F) (x : F)
  (i : nat) : F :=
  ftanh (fadd (product_at (Win net) [to_float32 x] i)
              (product_at (W net) state i)).

(** The state [tanh(Win . [x] + W . state)], of length [reservoir_size]. *)
Definition updated_state (net : EchoStateNetwork) (state : list F) (x : F)
  : list F :=
  map (update_at net state x) (seq 0 (reservoir_size net)).

(** The recurrence unrolled over the inputs [xs] from [state]: one
    update per input, in order. *)
Fixpoint unrolled_from (net : EchoStateNetwork) (xs : list F) (state : list F)
  : list F :=
  match xs with
  | [] => state
  | x :: xs' => unrolled_from net xs' (updated_state net state x)
  end.

(** What the forward pass is said to produce: one state per input, the
    state at index [t] being the recurrence unrolled over the inputs
    [0 .. t] from the zero vector of length [reservoir_size]. *)
Definition forward_pass_claim (net : EchoStateNetwork) (input_sequence : list F)
  : Prop :=
  exists traj : list (list F),
    run_states net input_sequence = Ok traj /\
    length traj = length input_sequence /\
    forall t, (t < length input_sequence)%nat ->
              nth t traj []
              = unrolled_from net (firstn (S t) input_sequence)
                              (repeat (flit 0) (reservoir_size net)).

(** The open interval (-1, 1), in the order of the values denoted. *)
Definition in_open_unit (x : F) : Prop :=
  flt (flit (-1)) x /\ flt x (flit 1).

(** The closed interval [-1, 1]. *)
Definition in_closed_unit (x : F) : Prop :=
  (flt (flit (-1)) x \/ x = flit (-1)) /\ (flt x (flit 1) \/ x = flit 1).

(** A value that [tanh] returned. *)
Definition tanh_output (c : F) : Prop := exists y : F, c = ftanh y.

(** Boundedness as the strict bound: every component of every state of
    the trajectory lies strictly inside (-1, 1). *)
Definition strict_bound_claim (net : EchoStateNetwork) (input_sequence : list F)
  : Prop :=
  forall traj : list (list F),
    run_states net input_sequence = Ok traj ->
    Forall (Forall in_open_unit) traj.

End ForwardPassStatements.

(** ** Statements on the machine *)

Section MachineStatements.

Context {F : Type} {FF : Float F} {TT : Torch F} {SK : Sklearn F}.

(** What [train] may change on the machine: the estimator of the network
    and nothing else. *)
Definition only_readout_changed (m m' : Machine) : Prop :=
  Win (self m') = Win (self m) /\
  W (self m') = W (self m) /\
  input_dim (self m') = input_dim (self m) /\
  reservoir_size (self m') = reservoir_size (self m) /\
  output_dim (self m') = output_dim (self m) /\
  spectral_radius (self m') = spectral_radius (self m) /\
  alpha (self m') = alpha (self m) /\
  generator m' = generator m /\
  numpy_seed m' = numpy_seed m /\
  stdout m' = stdout m.

(** A statement that keeps everything but the estimator, on every run,
    whether it returns or raises. *)
Definition keeps_weights {A : Type} (c : Py A) : Prop :=
  forall m, only_readout_changed m (snd (c m)).

(** ** Weight initialization *)

(** The tensors [initialize_weights] draws on the machine [m]: [Win] first,
    then [W] with the generator advanced by the first draw. *)
Definition drawn_Win (m : Machine) : matrix F :=
  let s := self m in
  times2_minus1
    (tabulate (reservoir_size s) (input_dim s)
              (fst (rand (generator m) (reservoir_size s) (input_dim s)))).

Definition generator_after_Win (m : Machine) : Generator :=
  let s := self m in
  snd (rand (generator m) (reservoir_size s) (input_dim s)).

Definition drawn_W (m : Machine) : matrix F :=
  let s := self m in
  times2_minus1
    (tabulate (reservoir_size s) (reservoir_size s)
              (fst (rand (generator_after_Win m)
                         (reservoir_size s) (reservoir_size s)))).

Definition generator_after_W (m : Machine) : Generator :=
  let s := self m in
  snd (rand (generator_after_Win m) (reservoir_size s) (reservoir_size s)).

(** The machine [m] with the weights [win] and [w] and the generator
    advanced by the two draws. *)
Definition with_weights (win w : matrix F) (m : Machine) : Machine :=
  set_W w (set_Win win (set_generator (generator_after_W m) m)).

(** A guard on the spectral radius, as a property of a machine:
    initialization fails with DegenerateMatrix exactly when the [rhoW] of
    the drawn matrix is zero. *)
Definition degenerate_guard_claim (m : Machine) : Prop :=
  forall rhoW : F,
    rho (drawn_W m) = Ok rhoW ->
    (fst (initialize_weights m) = Raise DegenerateMatrix <-> rhoW = flit 0).

(** ** The trial runner *)

(** The machine on which a trial evaluates the test data: the machine [m]
    that enters the trial, seeded, with fresh weights and trained on the
    training data. *)
Definition before_test_evaluation (train_data target_data : list F)
  (trial : nat) (m m2 : Machine) : Prop :=
  exists (m1 : Machine) (predictions : list F),
    initialize_weights
      (set_numpy_seed (Z.of_nat trial)
         (set_generator (manual_seed (Z.of_nat trial)) m)) = (Ok tt, m1) /\
    train train_data target_data m1 = (Ok predictions, m2).

(** The test error of a trial, as a refit: on the machine [m2] the state
    loop runs on the test input, the estimator is fitted on that trajectory
    against the test target, and the error is taken on the predictions of
    the estimator just fitted, on the same trajectory. *)
Definition refit_test_mse (test_data test_target : list F) (m2 : Machine)
  (test_mse : F) : Prop :=
  exists (X : list (list F)) (est : Ridge) (test_predictions : list F)
         (m3 : Machine),
    train test_data test_target m2 = (Ok test_predictions, m3) /\
    run_states (self m2) test_data = Ok X /\
    fit (readout (self m2)) X test_target = Ok est /\
    predict est X = Ok test_predictions /\
    readout (self m3) = est /\
    mean_squared_error test_target test_predictions = Ok test_mse.

(** What a trial contributes to [test_results]: for some machine reached
    in that trial after the training call, the refit error on it. *)
Definition trial_test_result (train_data target_data test_data test_target
  : list F) (trial : nat) (test_mse : F) : Prop :=
  exists m0 m2 : Machine,
    before_test_evaluation train_data target_data trial m0 m2 /\
    refit_test_mse test_data test_target m2 test_mse.

End MachineStatements.

(** ** The readout of the specification *)

Section ReadoutModel.

Context {F : Type} {FF : Float F}.

(** The solver of the ridge problem: the minimiser of
    [|X b - y|^2 + alpha |b|^2], for [alpha], [X] and [y]. *)
Variable ridge_solve : F -> list (list F) -> list F -> list F.





End ReadoutModel.

(** ** Eigenvalues of a real matrix *)

Section Spectrum.

Local Open Scope R_scope.

(** A complex number, by its real and imaginary parts. *)
Definition complex : Type := (R * R)%type.




(** The modulus [|z|]. *)
Definition Cmod (z : complex) : R := sqrt (fst z * fst z + snd z * snd z).






End Spectrum.

(** ** A concrete machine for the examples *)

Section ExampleMachine.

Local Open Scope R_scope.

(** The diagonal of a matrix, as complex numbers: the eigenvalues of a
    triangular matrix, and so of every matrix of one row and one column. *)
Definition diagonal (M : matrix R) : list complex :=
  map (fun i => (nth i (nth i (rows M) []) 0, 0)) (seq 0 (nrows M)).

(** A generator that is a counter: a draw fills the tensor with a quarter
    of the counter and increments it. *)
#[export] Instance CounterTorch : Torch R := {
  Generator := Z;
  manual_seed := fun seed => seed;
  rand := fun g _ _ => (fun _ _ => IZR g / 4, (g + 1)%Z);
  linalg_eig := diagonal;
  cabs := Cmod
}.

Definition Rsum (xs : list R) : R := fold_right Rplus 0 xs.

(** An estimator for the examples: ridge regression on the first feature,
    without intercept. *)
Record Ridge1 : Type := MkRidge1 {
  ridge1_alpha : R;
  ridge1_coef : option R
}.

Definition ridge1_fit (est : Ridge1) (X : list (list R)) (y : list R)
  : result Ridge1 :=
  if Nat.eqb (length X) (length y) then
    Ok (MkRidge1 (ridge1_alpha est)
          (Some (Rsum (map (fun p => hd 0 (fst p) * snd p) (combine X y))
                 / (Rsum (map (fun r => hd 0 r * hd 0 r) X) + ridge1_alpha est))))
  else Raise ValueError.

Definition ridge1_predict (est : Ridge1) (X : list (list R)) : result (list R) :=
  match ridge1_coef est with
  | Some b => Ok (map (fun r => b * hd 0 r) X)
  | None => Raise ValueError
  end.

Definition mse (y_true y_pred : list R) : result R :=
  if Nat.eqb (length y_true) (length y_pred) then
    Ok (Rsum (map (fun p => (fst p - snd p) * (fst p - snd p))
                  (combine y_true y_pred))
        / INR (length y_true))
  else Raise ValueError.

#[export] Instance Ridge1Sklearn : Sklearn R := {
  Ridge := Ridge1;
  Ridge_new := fun a => MkRidge1 a None;
  fit := ridge1_fit;
  predict := ridge1_predict;
  mean_squared_error := mse
}.

(** A network of one neuron with the notebook's defaults, not initialized
    yet, on a machine whose generator is at [g]. *)
Definition example_machine (g : Z) : Machine :=
  Mach (blank 1 1 1 (flit (9 # 10)) (flit (1 # 1000000))) g None [].

(** The network of [example_machine 2] after initialization. *)
Definition example_initialized : Machine :=
  snd (initialize_weights (example_machine 2)).

Definition example_network : EchoStateNetwork := self example_initialized.

Definition example_input : list R := [flit (12 # 10); flit (12 # 10); flit (11 # 10)].

(** A second machine with the weights of the first and everything else
    different: generator, seed, output, estimator and hyperparameters. *)
Definition example_other : Machine :=
  Mach (ESN 1 1 7 (flit 5) (flit 3) (Win example_network) (W example_network)
            (MkRidge1 2 (Some 4)))
       99%Z (Some 5%Z) [TrialLine 1 1 0 0].

End ExampleMachine.

(** ** The baseline and the experiment cell *)

(** The [LinearRegression] estimator of scikit-learn. *)
Class SklearnLinear (F : Type) : Type := {
  (** a [LinearRegression] object: its fitted state *)
  LinearRegression : Type;
  (** [LinearRegression()] *)
  LinearRegression_new : LinearRegression;
  (** [model.fit(X, y)]: the model after the fit, or the exception *)
  linear_fit : LinearRegression -> list (list F) -> list F -> result LinearRegression;
  (** [model.predict(X)] *)
  linear_predict : LinearRegression -> list (list F) -> result (list F)
}.

(** [np.mean] of a one-dimensional array. *)
Class Numpy (F : Type) : Type := {
  np_mean : list F -> F
}.

Section Notebook.

Context {F : Type} {FF : Float F} {TT : Torch F} {SK : Sklearn F}
        {LR : SklearnLinear F} {NP : Numpy F}.

Local Open Scope res_scope.

(** The position a slice bound denotes in an array of [len] elements: a
    negative bound counts from the end, and every bound is clipped to the
    array. *)
Definition slice_bound (len : nat) (i : Z) : nat :=
  let n := Z.of_nat len in
  if (i <? 0)%Z then Z.to_nat (Z.max 0 (i + n)) else Z.to_nat (Z.min i n).

(** [x[lo:hi]] *)
Definition slice (x : list F) (lo hi : Z) : list F :=
  let a := slice_bound (length x) lo in
  let b := slice_bound (length x) hi in
  firstn (b - a) (skipn a x).

(** [x.reshape(-1, 1)]: one row of one feature per element. *)
Definition reshape_column (x : list F) : list (list F) :=
  map (fun v => [v]) x.

Definition baseline_model (train_data target_data test_data test_target : list F)
  : result (F * F) :=
  let model := LinearRegression_new in
  model <- linear_fit model (reshape_column train_data) target_data ;;
  train_predictions <- linear_predict model (reshape_column train_data) ;;
  test_predictions <- linear_predict model (reshape_column test_data) ;;
  train_mse <- mean_squared_error target_data train_predictions ;;
  test_mse <- mean_squared_error test_target test_predictions ;;
  Ok (train_mse, test_mse).

(** The four windows of the experiment cell, in the order
    [train_data, train_target, test_data, test_target]. *)
Definition windows (data : list F) : list F * list F * list F * list F :=
  (slice data 0 800, slice data 200 1000,
   slice data 800 1300, slice data 1000 1500).

(** A statement run after a computation that has already left a result
    and a machine: it runs on that machine when the result is a value. *)
Definition then_run {A B : Type} (r : result A * Machine) (k : A -> Py B)
  : result B * Machine :=
  match r with
  | (Ok a, m) => k a m
  | (Raise e, m) => (Raise e, m)
  end.

(** The statements of the experiment cell after the data is there: the
    four windows, the network of 100 neurons with the default
    hyperparameters and the 50 trials, on a fresh interpreter whose
    generators and output are [g], [seed] and [out].  The value is the two
    result lists and their means, which the cell prints at the end. *)
Definition experiment_on (data : list F) (g : Generator) (seed : option Z)
  (out : list line) : result (list F * list F * F * F) * Machine :=
  let '(train_data, train_target, test_data, test_target) := windows data in
  then_run
    (EchoStateNetwork_init 1 100 1 (flit (9 # 10)) (flit (1 # 1000000))
                           g seed out)
    (fun _ =>
       bind (train_esn train_data train_target test_data test_target 50)
            (fun r => ret (fst r, snd r, np_mean (fst r), np_mean (snd r)))).

(** What a statement makes of a result: the continuation on a value, the
    handler on an exception. *)
Definition result_case {A B : Type} (r : result A) (ok : A -> B)
  (err : exn -> B) : B :=
  match r with
  | Ok a => ok a
  | Raise e => err e
  end.

(** The experiment cell: [data = mackey_glass(1500)] with the default
    parameters, then the statements above.  Before the network exists the
    machine holds the object not initialized yet. *)
Definition experiment_cell (g : Generator) (seed : option Z) (out : list line)
  : result (list F * list F * F * F) * Machine :=
  result_case (mackey_glass 1500 17 10 (flit (2 # 10)) (flit (1 # 10)))
    (fun data => experiment_on data g seed out)
    (fun e => (Raise e,
               Mach (blank 1 100 1 (flit (9 # 10)) (flit (1 # 1000000)))
                    g seed out)).

(** The baseline cell: [baseline_model] on the windows of [data]. *)
Definition baseline_cell (data : list F) : result (F * F) :=
  let '(train_data, train_target, test_data, test_target) := windows data in
  baseline_model train_data train_target test_data test_target.

End Notebook.

(** ** What the methods leave alone *)

Section Frames.

Context {F : Type} {FF : Float F} {TT : Torch F} {SK : Sklearn F}.

(** The hyperparameters of the network are the same on both machines. *)
Definition same_hyperparameters (m m' : Machine) : Prop :=
  input_dim (self m') = input_dim (self m) /\
  reservoir_size (self m') = reservoir_size (self m) /\
  output_dim (self m') = output_dim (self m) /\
  spectral_radius (self m') = spectral_radius (self m) /\
  alpha (self m') = alpha (self m).

(** A statement that keeps the hyperparameters, on every run. *)
Definition keeps_hyperparameters {A : Type} (c : Py A) : Prop :=
  forall m, same_hyperparameters m (snd (c m)).

(** What [initialize_weights] may change: [Win], [W] and the generator of
    PyTorch, and nothing else. *)
Definition only_weights_changed (m m' : Machine) : Prop :=
  same_hyperparameters m m' /\
  readout (self m') = readout (self m) /\
  numpy_seed m' = numpy_seed m /\
  stdout m' = stdout m.

(** What [adjust_spectral_radius] may change: the entries of [W], not its
    shape, and nothing else. *)
Definition only_W_rescaled (m m' : Machine) : Prop :=
  only_weights_changed m m' /\
  Win (self m') = Win (self m) /\
  generator m' = generator m /\
  nrows (W (self m')) = nrows (W (self m)) /\
  ncols (W (self m')) = ncols (W (self m)) /\
  map (@length F) (rows (W (self m'))) = map (@length F) (rows (W (self m))).

(** The lines [train_esn] prints for the trials [first], [first + 1], ...
    whose errors are [results] and [test_results]. *)
Fixpoint trial_lines (first num_trials : nat) (results test_results : list F)
  : list line :=
  match results, test_results with
  | mse :: results', test_mse :: test_results' =>
      TrialLine (first + 1) num_trials mse test_mse
      :: trial_lines (S first) num_trials results' test_results'
  | _, _ => []
  end.

End Frames.

(** ** More example machines *)

Section MoreExampleMachines.

Local Open Scope R_scope.


(** A network of one neuron and two inputs, after initialization. *)
Definition example_two_inputs : Machine :=
  snd (initialize_weights
         (Mach (blank 2 1 1 (flit (9 # 10)) (flit (1 # 1000000))) 2%Z None [])).

(** A network of two neurons with weights of both signs, on real
    numbers. *)
Definition example_two_neurons : EchoStateNetwork :=
  ESN 1 2 1 (flit (9 # 10)) (flit (1 # 1000000))
      (Matrix 2 1 [[1 / 2]; [- (1 / 4)]])
      (Matrix 2 2 [[0; 1 / 2]; [- (1 / 2); 1 / 4]])
      (MkRidge1 (flit (1 # 1000000)) None).

(** A network of one neuron in binary32 arithmetic, with [Win = [[1]]]
    and [W = [[1/2]]]. *)
Definition saturating_network : EchoStateNetwork :=
  ESN 1 1 1 (flit (Float := Binary32) (9 # 10)) (flit (Float := Binary32) (1 # 1000000))
      (Matrix 1 1 [[1]]) (Matrix 1 1 [[1 / 2]])
      (MkRidge1 (flit (Float := Binary32) (1 # 1000000)) None).

(** A linear regression for the examples: least squares on the first
    feature, without intercept. *)
#[export] Instance Ridge1Linear : SklearnLinear R := {
  LinearRegression := Ridge1;
  LinearRegression_new := MkRidge1 0 None;
  linear_fit := ridge1_fit;
  linear_predict := ridge1_predict
}.

End MoreExampleMachines.

(** * Properties *)

(** ** Arrays and ranges *)

Section ArrayFacts.

Context {F : Type} {FF : Float F}.

Lemma range_nil (lo hi : Z) : (hi <= lo)%Z -> range lo hi = [].
Proof.
  intros H. unfold range.
  replace (Z.to_nat (hi - lo)) with 0%nat by lia. reflexivity.
Qed.

Lemma range_cons (lo hi : Z) :
  (lo < hi)%Z -> range lo hi = lo :: range (lo + 1) hi.
Proof.
  intros H. unfold range.
  replace (Z.to_nat (hi - lo)) with (S (Z.to_nat (hi - (lo + 1)))) by lia.
  rewrite <- cons_seq, <- seq_shift, map_cons, map_map.
  f_equal; [lia|].
  apply map_ext. intros k. lia.
Qed.

Lemma update_length (x : list F) (k : nat) (v : F) :
  length (update x k v) = length x.
Proof.
  revert k. induction x as [|a x IH]; intros [|k]; simpl; auto.
Qed.

Lemma nth_update_same (x : list F) (k : nat) (v d : F) :
  (k < length x)%nat -> nth k (update x k v) d = v.
Proof.
  revert k. induction x as [|a x IH]; intros [|k] H; simpl in *;
    try lia; auto.
  apply IH. lia.
Qed.

Lemma nth_update_other (x : list F) (k j : nat) (v d : F) :
  j <> k -> nth j (update x k v) d = nth j x d.
Proof.
  revert k j. induction x as [|a x IH]; intros [|k] [|j] H; simpl;
    try congruence; auto.
Qed.

Lemma index_of_in_range (len : nat) (i : Z) :
  (0 <= i < Z.of_nat len)%Z -> index_of len i = Some (Z.to_nat i).
Proof.
  intros H. unfold index_of.
  replace ((0 <=? i)%Z && (i <? Z.of_nat len)%Z) with true; [reflexivity|].
  symmetry. apply andb_true_iff. split; [apply Z.leb_le|apply Z.ltb_lt]; lia.
Qed.

Lemma getitem_in_range (x : list F) (i : Z) :
  (0 <= i < Z.of_nat (length x))%Z ->
  getitem x i = Ok (nth (Z.to_nat i) x (flit 0)).
Proof.
  intros H. unfold getitem. now rewrite index_of_in_range.
Qed.

Lemma setitem_in_range (x : list F) (i : Z) (v : F) :
  (0 <= i < Z.of_nat (length x))%Z ->
  setitem x i v = Ok (update x (Z.to_nat i) v).
Proof.
  intros H. unfold setitem. now rewrite index_of_in_range.
Qed.

Lemma mackey_glass_step_invariant (T tau n : Z) (beta gamma : F)
  (x : list F) (k : Z) :
  (1 <= tau)%Z -> (1 <= k < T)%Z ->
  generated_up_to x T tau n beta gamma k ->
  exists x', mackey_glass_step tau n beta gamma x k = Ok x' /\
             generated_up_to x' T tau n beta gamma (k + 1).
Proof.
  intros Htau Hk (Hlen & H0 & Hw & Hr).
  unfold mackey_glass_step.
  assert (Hit : forall v j, (0 <= j)%Z -> j <> k ->
                item (update x (Z.to_nat k) v) j = item x j).
  { intros v j Hj Hne. unfold item. apply nth_update_other. lia. }
  assert (Hik : forall v, item (update x (Z.to_nat k) v) k = v).
  { intros v. unfold item. apply nth_update_same. lia. }
  destruct (k - tau >=? 0)%Z eqn:E.
  - assert (tau <= k)%Z by (apply Z.geb_le in E; lia).
    rewrite (getitem_in_range x (i := k - 1)) by lia. cbn [rbind].
    rewrite (getitem_in_range x (i := k - tau)) by lia. cbn [rbind].
    rewrite setitem_in_range by lia.
    eexists. split; [reflexivity|].
    repeat split.
    + rewrite update_length. exact Hlen.
    + unfold first_element. rewrite Hit by lia. exact H0.
    + intros t Ht Ht'. rewrite !Hit by lia. apply Hw; lia.
    + intros t Ht. destruct (Z.eq_dec t k) as [->|Hne].
      * rewrite Hik, !Hit by lia. reflexivity.
      * rewrite !Hit by lia. apply Hr. lia.
  - assert (k < tau)%Z.
    { destruct (Z.geb_spec (k - tau) 0); [discriminate|lia]. }
    rewrite (getitem_in_range x (i := k - 1)) by lia. cbn [rbind].
    rewrite setitem_in_range by lia.
    eexists. split; [reflexivity|].
    repeat split.
    + rewrite update_length. exact Hlen.
    + unfold first_element. rewrite Hit by lia. exact H0.
    + intros t Ht Ht'. destruct (Z.eq_dec t k) as [->|Hne].
      * rewrite Hik, Hit by lia. reflexivity.
      * rewrite !Hit by lia. apply Hw; lia.
    + intros t Ht. lia.
Qed.

Lemma mackey_glass_loop_invariant (T tau n : Z) (beta gamma : F) (steps : nat) :
  forall (x : list F) (k : Z),
    (1 <= tau)%Z -> (1 <= k <= T)%Z -> Z.to_nat (T - k) = steps ->
    generated_up_to x T tau n beta gamma k ->
    exists x', for_each (mackey_glass_step tau n beta gamma) (range k T) x = Ok x'
               /\ generated_up_to x' T tau n beta gamma T.
Proof.
  induction steps as [|steps IH]; intros x k Htau Hk Hs Hinv.
  - assert (k = T) by lia. subst k.
    rewrite range_nil by lia. exists x. split; [reflexivity|assumption].
  - rewrite range_cons by lia. cbn [for_each].
    destruct (@mackey_glass_step_invariant T tau n beta gamma x k)
      as (x1 & E1 & I1); [lia|lia|assumption|].
    rewrite E1. cbn [rbind].
    apply IH; [lia|lia|lia|assumption].
Qed.

End ArrayFacts.

(** ** The Mackey-Glass generator *)

Section MackeyGlass.

Context {F : Type} {FF : Float F}.

Lemma np_zeros_length (T : Z) (x : list F) :
  np_zeros T = Ok x -> (0 <= T)%Z /\ Z.of_nat (length x) = T.
Proof.
  unfold np_zeros. destruct (Z.ltb_spec T 0); [discriminate|].
  intros E. injection E as <-. rewrite repeat_length. lia.
Qed.

(** C10: a length of zero is refused with an [IndexError] at the
    assignment [x[0] = 1.2], whatever the other parameters, and a call
    that returns a sequence had a length of at least one. *)
Theorem mackey_glass_needs_positive_length (tau n : Z) (beta gamma : F) :
  mackey_glass 0 tau n beta gamma = Raise IndexError /\
  (forall (T : Z) (x : list F),
      mackey_glass T tau n beta gamma = Ok x -> (1 <= T)%Z).
Proof.
  split; [reflexivity|].
  intros T x. unfold mackey_glass.
  destruct (np_zeros T) as [x0|e] eqn:E0; [|discriminate].
  apply np_zeros_length in E0. destruct E0 as [HT Hlen].
  destruct (Z.eq_dec T 0) as [->|Hne]; [|lia].
  destruct x0; [|discriminate]. discriminate.
Qed.

(** C6, as amended: for a length [T >= 1] and a delay [tau >= 1] the
    generator returns a sequence of length [T] that starts with 1.2, is
    constant below [tau], and satisfies the delayed recurrence from [tau]
    on. *)
Theorem mackey_glass_equations (T tau n : Z) (beta gamma : F) :
  (1 <= T)%Z -> (1 <= tau)%Z -> mackey_glass_claim T tau n beta gamma.
Proof.
  intros HT Htau. unfold mackey_glass_claim, mackey_glass.
  destruct (np_zeros T) as [x0|e] eqn:E0.
  2:{ unfold np_zeros in E0. destruct (Z.ltb_spec T 0); [lia|discriminate]. }
  apply np_zeros_length in E0. destruct E0 as [_ Hlen].
  cbn [rbind]. rewrite setitem_in_range by lia. cbn [rbind].
  destruct (@mackey_glass_loop_invariant F FF T tau n beta gamma
              (Z.to_nat (T - 1)) (update x0 (Z.to_nat 0) (flit (12 # 10))) 1)
    as (x & E & I); [lia|lia|reflexivity| |].
  - repeat split.
    + rewrite update_length. exact Hlen.
    + unfold first_element, item. apply nth_update_same. lia.
    + intros t Ht Ht'. lia.
    + intros t Ht. lia.
  - exists x. split; [exact E|]. exact I.
Qed.

End MackeyGlass.

(** ** Exact real arithmetic *)

Section RealFacts.

Local Open Scope R_scope.

Lemma cosh_pos (x : R) : 0 < cosh x.
Proof.
  unfold cosh. pose proof (exp_pos x). pose proof (exp_pos (- x)). lra.
Qed.

Lemma tanh_range (x : R) : -1 < tanh x < 1.
Proof.
  pose proof (exp_pos x) as Hp. pose proof (exp_pos (- x)) as Hn.
  pose proof (cosh_pos x) as Hc.
  unfold tanh. split.
  - apply Rmult_lt_reg_r with (cosh x); [exact Hc|].
    unfold Rdiv. rewrite Rmult_assoc, Rinv_l by lra.
    unfold sinh, cosh in *. lra.
  - apply Rmult_lt_reg_r with (cosh x); [exact Hc|].
    unfold Rdiv. rewrite Rmult_assoc, Rinv_l by lra.
    unfold sinh, cosh in *. lra.
Qed.

End RealFacts.

(** ** Binary32 arithmetic *)

Section Binary32Facts.

Local Open Scope R_scope.

Local Unset Implicit Arguments.

Lemma pow2_pos (e : Z) : 0 < pow2 e.
Proof. apply powerRZ_lt. lra. Qed.

Lemma pow2_add (a b : Z) : pow2 (a + b) = pow2 a * pow2 b.
Proof. apply powerRZ_add. lra. Qed.

Lemma pow2_opp (e : Z) : pow2 (- e) * pow2 e = 1.
Proof.
  rewrite <- pow2_add. replace (- e + e)%Z with 0%Z by lia. reflexivity.
Qed.

Lemma pow2_IZR (n : Z) : (0 <= n)%Z -> pow2 n = IZR (2 ^ n).
Proof.
  intros H. unfold pow2. destruct n as [|p|p]; [reflexivity| |lia].
  cbn [powerRZ]. rewrite pow_IZR, positive_nat_Z. reflexivity.
Qed.

Lemma ln_2_pos : 0 < ln 2.
Proof. pose proof ln_lt_2. lra. Qed.

Lemma ln_pow2 (e : Z) : ln (pow2 e) = IZR e * ln 2.
Proof.
  unfold pow2. rewrite powerRZ_Rpower by lra. unfold Rpower. apply ln_exp.
Qed.

(** The exponent of a number between two consecutive powers of two. *)
Lemma floor_log2_eq (x : R) (e : Z) :
  pow2 e <= Rabs x < pow2 (e + 1) -> floor_log2 x = e.
Proof.
  intros [Hlo Hhi]. unfold floor_log2. apply Zfloor_eq.
  pose proof ln_2_pos as H2. pose proof (pow2_pos e) as Hp.
  assert (Hl : IZR e * ln 2 <= ln (Rabs x)).
  { rewrite <- ln_pow2. destruct Hlo as [Hlt|Heq].
    - left. apply ln_increasing; assumption.
    - right. rewrite Heq. reflexivity. }
  assert (Hh : ln (Rabs x) < (IZR e + 1) * ln 2).
  { rewrite <- plus_IZR, <- ln_pow2. apply ln_increasing; lra. }
  split.
  - apply Rmult_le_reg_r with (ln 2); [exact H2|].
    unfold Rdiv. rewrite Rmult_assoc, Rinv_l by lra. lra.
  - apply Rmult_lt_reg_r with (ln 2); [exact H2|].
    unfold Rdiv. rewrite Rmult_assoc, Rinv_l by lra. lra.
Qed.

(** The exponent of a number inside (-1, 1) is negative. *)
Lemma floor_log2_small (x : R) : x <> 0 -> Rabs x < 1 -> (floor_log2 x <= -1)%Z.
Proof.
  intros Hx Hlt. unfold floor_log2.
  pose proof ln_2_pos as H2.
  assert (Hpos : 0 < Rabs x) by (apply Rabs_pos_lt; exact Hx).
  assert (Hln : ln (Rabs x) < 0).
  { rewrite <- ln_1. apply ln_increasing; assumption. }
  assert (Hq : ln (Rabs x) / ln 2 < 0).
  { apply Rmult_lt_reg_r with (ln 2); [exact H2|].
    unfold Rdiv. rewrite Rmult_assoc, Rinv_l by lra. lra. }
  pose proof (Zfloor_bound (ln (Rabs x) / ln 2)) as [Hb _].
  assert (Hz : IZR (Zfloor (ln (Rabs x) / ln 2)) < IZR 0) by lra.
  apply lt_IZR in Hz. lia.
Qed.

Lemma nearest_even_bounds (x : R) :
  (Zfloor x <= nearest_even x <= Zfloor x + 1)%Z.
Proof.
  unfold nearest_even. cbv zeta.
  destruct (Rlt_dec (x - IZR (Zfloor x)) (1 / 2)); [lia|].
  destruct (Rlt_dec (1 / 2) (x - IZR (Zfloor x))); [lia|].
  destruct (Z.even (Zfloor x)); lia.
Qed.

Lemma nearest_even_IZR (k : Z) : nearest_even (IZR k) = k.
Proof.
  unfold nearest_even. cbv zeta. rewrite ZfloorZ.
  destruct (Rlt_dec (IZR k - IZR k) (1 / 2)) as [_|H]; [reflexivity|].
  exfalso. apply H. lra.
Qed.

(** A number that is a multiple of the unit of its exponent is its own
    rounding. *)
Lemma round32_exact (x : R) (e k : Z) :
  pow2 e <= Rabs x < pow2 (e + 1) ->
  x * pow2 (- Z.max (e - 23) (-149)) = IZR k ->
  round32 x = x.
Proof.
  intros Hb Hk. unfold round32.
  destruct (Req_dec_T x 0) as [->|Hx]; [reflexivity|].
  cbv zeta. rewrite (floor_log2_eq x e Hb), Hk, nearest_even_IZR, <- Hk.
  rewrite Rmult_assoc, pow2_opp. ring.
Qed.

Lemma pow2_values :
  pow2 (-1) = / 2 /\ pow2 0 = 1 /\ pow2 1 = 2 /\ pow2 4 = 16 /\ pow2 5 = 32.
Proof. unfold pow2. simpl. repeat split; lra. Qed.

Lemma round32_0 : round32 0 = 0.
Proof.
  unfold round32. destruct (Req_dec_T 0 0) as [_|H]; [reflexivity|].
  exfalso. apply H. reflexivity.
Qed.

Lemma round32_1 : round32 1 = 1.
Proof.
  apply (round32_exact 1 0 (2 ^ 23)).
  - rewrite Rabs_R1. change (0 + 1)%Z with 1%Z. destruct pow2_values as (_ & -> & -> & _). lra.
  - replace (- Z.max (0 - 23) (-149))%Z with 23%Z by reflexivity.
    rewrite pow2_IZR by lia. ring.
Qed.

Lemma round32_m1 : round32 (-1) = -1.
Proof.
  apply (round32_exact (-1) 0 (- 2 ^ 23)).
  - rewrite Rabs_left by lra. change (0 + 1)%Z with 1%Z.
    destruct pow2_values as (_ & -> & -> & _). lra.
  - replace (- Z.max (0 - 23) (-149))%Z with 23%Z by reflexivity.
    rewrite pow2_IZR, opp_IZR by lia. ring.
Qed.

Lemma round32_20 : round32 20 = 20.
Proof.
  apply (round32_exact 20 4 (20 * 2 ^ 19)).
  - rewrite Rabs_right by lra. change (4 + 1)%Z with 5%Z.
    destruct pow2_values as (_ & _ & _ & -> & ->). lra.
  - replace (- Z.max (4 - 23) (-149))%Z with 19%Z by reflexivity.
    rewrite pow2_IZR, mult_IZR by lia. ring.
Qed.

(** The rounding of a number inside (-1, 1) lies in [-1, 1]. *)
Lemma round32_unit (x : R) : -1 < x < 1 -> -1 <= round32 x <= 1.
Proof.
  intros Hx. unfold round32.
  destruct (Req_dec_T x 0) as [_|Hnz]; [lra|]. cbv zeta.
  assert (Habs : Rabs x < 1) by (apply Rabs_def1; lra).
  pose proof (floor_log2_small x Hnz Habs) as Hexp.
  remember (Z.max (floor_log2 x - 23) (-149)) as e eqn:He.
  assert (Hneg : (e <= -24)%Z) by lia.
  pose proof (pow2_pos e) as Hpe.
  pose proof (pow2_opp e) as Hone.
  assert (HN : pow2 (- e) = IZR (2 ^ (- e))) by (apply pow2_IZR; lia).
  assert (HNpos : (0 < 2 ^ (- e))%Z) by (apply Z.pow_pos_nonneg; lia).
  set (N := (2 ^ (- e))%Z) in *.
  assert (HNR : 0 < IZR N) by (apply IZR_lt; exact HNpos).
  rewrite HN in *.
  set (z := x * IZR N).
  assert (Hz : - IZR N < z < IZR N) by (unfold z; nra).
  pose proof (nearest_even_bounds z) as [Hk1 Hk2].
  pose proof (Zfloor_bound z) as [Hf1 Hf2].
  assert (Hup : (Zfloor z < N)%Z) by (apply lt_IZR; lra).
  assert (Hlo : (- N <= Zfloor z)%Z).
  { apply Zfloor_lub. rewrite opp_IZR. lra. }
  assert (Hk : - IZR N <= IZR (nearest_even z) <= IZR N).
  { rewrite <- opp_IZR. split; apply IZR_le; lia. }
  split.
  - replace (-1) with (- IZR N * pow2 e) by lra.
    apply Rmult_le_compat_r; lra.
  - replace 1 with (IZR N * pow2 e) by lra.
    apply Rmult_le_compat_r; lra.
Qed.

Lemma exp_20_large : 20736 < exp 20.
Proof.
  assert (H1 : 7 / 2 < exp (5 / 2)).
  { pose proof (exp_ineq1 (5 / 2)). lra. }
  assert (H2 : exp 5 = exp (5 / 2) * exp (5 / 2)).
  { rewrite <- exp_plus. f_equal. lra. }
  assert (H3 : exp 10 = exp 5 * exp 5).
  { rewrite <- exp_plus. f_equal. lra. }
  assert (H4 : exp 20 = exp 10 * exp 10).
  { rewrite <- exp_plus. f_equal. lra. }
  assert (H5 : 12 < exp 5) by nra.
  assert (H6 : 144 < exp 10) by nra.
  nra.
Qed.

(** [tanh 20] is nearer to 1 than half the distance between 1 and the
    binary32 number below it. *)
Lemma tanh_20_near_1 : 1 - / 67108864 < tanh 20 < 1.
Proof.
  split; [|apply tanh_range].
  pose proof exp_20_large as HE. pose proof (exp_pos (Ropp 20)) as Ha.
  assert (Hinv : exp (Ropp 20) * exp 20 = 1).
  { rewrite <- exp_plus. replace (Ropp 20 + 20) with 0 by lra. apply exp_0. }
  unfold tanh, sinh, cosh.
  set (E := exp 20) in *. set (a := exp (Ropp 20)) in *.
  assert (Hsmall : a < / 20736).
  { apply Rmult_lt_reg_r with E; [lra|].
    rewrite Hinv. apply Rmult_lt_reg_l with 20736; [lra|].
    rewrite <- Rmult_assoc, Rinv_r by lra. lra. }
  replace ((E - a) / 2 / ((E + a) / 2)) with ((E - a) / (E + a))
    by (field; lra).
  apply Rmult_lt_reg_r with (E + a); [lra|].
  replace ((E - a) / (E + a) * (E + a)) with (E - a) by (field; lra).
  lra.
Qed.

Lemma round32_tanh_20 : round32 (tanh 20) = 1.
Proof.
  pose proof tanh_20_near_1 as [Hlo Hhi].
  unfold round32.
  destruct (Req_dec_T (tanh 20) 0) as [H0|_]; [lra|]. cbv zeta.
  assert (He : floor_log2 (tanh 20) = (-1)%Z).
  { apply floor_log2_eq. rewrite Rabs_right by lra.
    change (-1 + 1)%Z with 0%Z. destruct pow2_values as (-> & -> & _). lra. }
  rewrite He.
  replace (Z.max (-1 - 23) (-149)) with (-24)%Z by reflexivity.
  replace (- -24)%Z with 24%Z by reflexivity.
  rewrite (pow2_IZR 24) by lia.
  replace (2 ^ 24)%Z with 16777216%Z by reflexivity.
  assert (Hf : Zfloor (tanh 20 * 16777216) = 16777215%Z).
  { apply Zfloor_eq. lra. }
  unfold nearest_even. cbv zeta. rewrite Hf.
  destruct (Rlt_dec (tanh 20 * 16777216 - 16777215) (1 / 2)) as [H|_]; [lra|].
  destruct (Rlt_dec (1 / 2) (tanh 20 * 16777216 - 16777215)) as [_|H]; [|lra].
  replace (16777215 + 1)%Z with (2 ^ 24)%Z by reflexivity.
  rewrite <- (pow2_IZR 24) by lia.
  apply (pow2_opp (-24)).
Qed.

End Binary32Facts.

(** ** The Mackey-Glass generator on real numbers *)

Section MackeyGlassReal.

Local Open Scope R_scope.

(** With a delay of zero and two elements the loop runs once, at [t = 1],
    and reads [x[t - tau] = x[1]], which still holds the initial zero. *)
Lemma mackey_glass_zero_delay {F : Type} {FF : Float F} (n : Z) (beta gamma : F) :
  mackey_glass 2 0 n beta gamma
  = Ok [flit (12 # 10); delayed_update n beta gamma (flit (12 # 10)) (flit 0)].
Proof. reflexivity. Qed.

Lemma Q2R_lit (a : Z) (b : positive) : Q2R (a # b) = IZR a / IZR (Zpos b).
Proof. reflexivity. Qed.

Lemma delayed_update_from_zero :
  delayed_update (F := R) 10 (flit (2 # 10)) (flit (1 # 10)) (flit (12 # 10)) (flit 0)
  = 108 / 100.
Proof.
  unfold delayed_update. cbn [fsub fadd fdiv fmul fpow flit RFloat].
  rewrite !Q2R_lit.
  replace (powerRZ (0 / 1) 10) with 0 by (unfold powerRZ; simpl; lra).
  lra.
Qed.

(** C6, as stated, fails for a delay of zero: with [T = 2] and [tau = 0] the
    loop reads [x[1]] before it is assigned (it is still 0), so the value
    stored, 1.08, does not satisfy the recurrence on the final sequence. *)
Lemma mackey_glass_claim_fails_at_zero_delay :
  ~ mackey_glass_claim (F := R) 2 0 10 (flit (2 # 10)) (flit (1 # 10)).
Proof.
  intros (x & E & _ & _ & _ & Hr).
  rewrite mackey_glass_zero_delay, delayed_update_from_zero in E.
  injection E as <-.
  specialize (Hr 1%Z ltac:(lia)).
  unfold item in Hr.
  change (Z.to_nat (1 - 0)) with 1%nat in Hr.
  change (Z.to_nat (1 - 1)) with 0%nat in Hr.
  change (Z.to_nat 1) with 1%nat in Hr.
  cbn [nth] in Hr.
  unfold delayed_update in Hr. cbn [fsub fadd fdiv fmul fpow flit RFloat] in Hr.
  rewrite !Q2R_lit in Hr.
  assert (Hp : 0 < powerRZ (108 / 100) 10) by (apply powerRZ_lt; lra).
  assert (Hq : 0 < 2 / 10 * (108 / 100) / (1 / 1 + powerRZ (108 / 100) 10)).
  { apply Rdiv_lt_0_compat; lra. }
  lra.
Qed.

(** C10 at the length 1: the call returns the one-element sequence. *)
Lemma mackey_glass_needs_positive_length_witness :
  mackey_glass (F := R) 1 17 10 (flit (2 # 10)) (flit (1 # 10)) = Ok [flit (12 # 10)]
  /\ (1 <= 1)%Z.
Proof.
  split; [reflexivity|].
  apply (proj2 (mackey_glass_needs_positive_length 17 10 (flit (2 # 10)) (flit (1 # 10)))
               1%Z [flit (12 # 10)]).
  reflexivity.
Defined.

(** C6, as amended, at the notebook's delay 17 and a length of 20. *)
Lemma mackey_glass_equations_witness :
  (1 <= 20)%Z /\ (1 <= 17)%Z /\
  mackey_glass_claim (F := R) 20 17 10 (flit (2 # 10)) (flit (1 # 10)).
Proof.
  split; [lia|]. split; [lia|].
  apply mackey_glass_equations; lia.
Defined.

End MackeyGlassReal.

(** ** The forward pass *)

Section ForwardPass.

Context {F : Type} {FF : Float F} {TT : Torch F} {SK : Sklearn F}.

Lemma rbind_Ok {A B : Type} (r : result A) (k : A -> result B) (b : B) :
  rbind r k = Ok b -> exists a, r = Ok a /\ k a = Ok b.
Proof. destruct r as [a|e]; simpl; [eauto|discriminate]. Qed.

Lemma for_each_ext {A S : Type} (f g : S -> A -> result S) (xs : list A) :
  (forall s x, f s x = g s x) -> forall s, for_each f xs s = for_each g xs s.
Proof.
  intros H. induction xs as [|x xs IH]; intros s; simpl; [reflexivity|].
  rewrite H. destruct (g s x); simpl; auto.
Qed.

(** The loop of [train] appends one state per input, and the state
    appended at step [t] is the recurrence unrolled over the first [t + 1]
    inputs. *)
Lemma train_loop_unrolled (net : EchoStateNetwork) (data : list F) :
  forall (s0 : list F) (acc : list (list F)) (s : list F)
         (states : list (list F)),
    for_each (train_loop_body net) data (s0, acc) = Ok (s, states) ->
    exists new,
      states = acc ++ new /\ length new = length data /\
      forall t, (t < length data)%nat ->
                unroll net (firstn (S t) data) s0 = Ok (nth t new []).
Proof.
  induction data as [|x data IH]; intros s0 acc s states H.
  - simpl in H. injection H as <- <-. exists []. rewrite app_nil_r.
    repeat split; simpl; intros; lia.
  - cbn [for_each] in H. apply rbind_Ok in H. destruct H as ([s1 acc1] & Hb & H).
    unfold train_loop_body in Hb. apply rbind_Ok in Hb.
    destruct Hb as (s1' & Hs & Hb). cbn [fst snd] in *.
    injection Hb as -> <-.
    apply IH in H. destruct H as (new & -> & Hlen & Hnth).
    exists (s1 :: new). rewrite <- app_assoc. repeat split; simpl; [lia|].
    intros [|t] Ht.
    + unfold unroll. cbn [firstn for_each]. rewrite Hs. reflexivity.
    + unfold unroll. cbn [firstn for_each]. rewrite Hs. cbn [rbind].
      apply Hnth. lia.
Qed.

Lemma reservoir_step_total (net : EchoStateNetwork) (s : list F) (x : F) :
  forward_shapes net -> length s = reservoir_size net ->
  exists s', reservoir_step net s x = Ok s' /\ length s' = reservoir_size net.
Proof.
  intros (Hwin & Hc & Hw & Hcw) Hs. unfold reservoir_step, matvec.
  rewrite Hc, Hcw, Hs. cbn [length]. rewrite !Nat.eqb_refl. cbn [rbind].
  unfold vadd. rewrite !length_map, Hwin, Hw, Nat.eqb_refl. cbn [rbind].
  eexists. split; [reflexivity|].
  rewrite !length_map, length_combine, !length_map, Hwin, Hw. lia.
Qed.

Lemma train_loop_total (net : EchoStateNetwork) (data : list F) :
  forward_shapes net ->
  forall (s0 : list F) (acc : list (list F)),
    length s0 = reservoir_size net ->
    exists s states,
      for_each (train_loop_body net) data (s0, acc) = Ok (s, states).
Proof.
  intros Hsh. induction data as [|x data IH]; intros s0 acc Hs.
  - simpl. eauto.
  - cbn [for_each]. unfold train_loop_body at 1. cbn [fst snd].
    destruct (@reservoir_step_total net s0 x Hsh Hs) as (s1 & E & Hl).
    rewrite E. cbn [rbind]. apply IH. exact Hl.
Qed.

(** The inner product of the loop is the sum of the products of the
    entries, in index order. *)
Lemma fold_dot_sum_of (term : nat -> F) :
  forall (r v : list F) (k : nat),
    length r = length v ->
    (forall j, (j < length r)%nat ->
               term (k + j)%nat = fmul (nth j r (flit 0)) (nth j v (flit 0))) ->
    fold_left (fun acc p => fadd acc (fmul (fst p) (snd p))) (combine r v)
              (sum_of k term)
    = sum_of (k + length r) term.
Proof.
  induction r as [|a r IH]; intros [|b v] k Hlen Hterm; try discriminate.
  - cbn [combine fold_left length]. rewrite Nat.add_0_r. reflexivity.
  - cbn [combine fold_left fst snd length].
    replace (fadd (sum_of k term) (fmul a b)) with (sum_of (S k) term).
    + rewrite (IH v (S k)).
      * f_equal. lia.
      * simpl in Hlen. lia.
      * intros j Hj. replace (S k + j)%nat with (k + S j)%nat by lia.
        apply (Hterm (S j)). simpl. lia.
    + cbn [sum_of]. f_equal. specialize (Hterm 0%nat).
      rewrite Nat.add_0_r in Hterm. apply Hterm. simpl. lia.
Qed.

Lemma dot_sum_of (r v : list F) :
  length r = length v ->
  dot r v
  = sum_of (length r) (fun j => fmul (nth j r (flit 0)) (nth j v (flit 0))).
Proof.
  intros H. unfold dot.
  change (flit 0)
    with (sum_of 0 (fun j => fmul (nth j r (flit 0)) (nth j v (flit 0)))) at 1.
  rewrite (@fold_dot_sum_of
             (fun j => fmul (nth j r (flit 0)) (nth j v (flit 0))) r v 0%nat H);
    reflexivity.
Qed.

Lemma map_over_indices {A B : Type} (g : A -> B) (l : list A) (d : A) :
  map g l = map (fun i => g (nth i l d)) (seq 0 (length l)).
Proof.
  induction l as [|a l IH]; [reflexivity|].
  cbn [map length seq nth]. f_equal.
  rewrite IH, <- seq_shift, map_map. reflexivity.
Qed.

Lemma combine_map_indices {A B : Type} (f : nat -> A) (g : nat -> B)
  (s : list nat) :
  combine (map f s) (map g s) = map (fun i => (f i, g i)) s.
Proof. induction s as [|i s IH]; simpl; [reflexivity|]. now rewrite IH. Qed.

(** One pass of the loop body computes [tanh(Win . [x] + W . state)]
    entry by entry. *)
Lemma reservoir_step_updated (net : EchoStateNetwork) (state : list F) (x : F) :
  tensor_shapes net -> length state = reservoir_size net ->
  reservoir_step net state x = Ok (updated_state net state x).
Proof.
  intros ((Hwin & Hc & Hw & Hcw) & (_ & HrWin) & (_ & HrW)) Hs.
  unfold reservoir_step, matvec. rewrite Hc, Hcw, Hs. cbn [length].
  rewrite !Nat.eqb_refl. cbn [rbind].
  unfold vadd. rewrite !length_map, Hwin, Hw, Nat.eqb_refl. cbn [rbind].
  f_equal. unfold updated_state.
  rewrite (map_over_indices (fun r => dot r [to_float32 x]) (rows (Win net)) []),
          (map_over_indices (fun r => dot r state) (rows (W net)) []),
          Hwin, Hw, combine_map_indices, !map_map.
  apply map_ext_in. intros i Hi. apply in_seq in Hi. cbn [fst snd].
  unfold update_at, product_at, entry.
  assert (HlWin : length (nth i (rows (Win net)) []) = ncols (Win net)).
  { rewrite Forall_forall in HrWin. apply HrWin, nth_In. lia. }
  assert (HlW : length (nth i (rows (W net)) []) = ncols (W net)).
  { rewrite Forall_forall in HrW. apply HrW, nth_In. lia. }
  rewrite !dot_sum_of, HlWin, HlW; [reflexivity| |].
  - rewrite HlW, Hcw, Hs. reflexivity.
  - rewrite HlWin, Hc. reflexivity.
Qed.

Lemma updated_state_length (net : EchoStateNetwork) (state : list F) (x : F) :
  length (updated_state net state x) = reservoir_size net.
Proof. unfold updated_state. now rewrite length_map, length_seq. Qed.

Lemma unroll_unrolled_from (net : EchoStateNetwork) :
  tensor_shapes net ->
  forall (xs : list F) (state : list F),
    length state = reservoir_size net ->
    unroll net xs state = Ok (unrolled_from net xs state).
Proof.
  intros Hts. induction xs as [|x xs IH]; intros state Hs; [reflexivity|].
  unfold unroll. cbn [for_each unrolled_from].
  rewrite (@reservoir_step_updated net state x Hts Hs). cbn [rbind].
  apply IH, updated_state_length.
Qed.

(** C2: on a network with the tensors of the data model (scalar input),
    the state loop of [train] returns exactly one state per input, and the
    state at index [t] is the recurrence
    [state <- tanh(Win . [input[t]] + W . state)], written out entry by
    entry, unrolled over the inputs [0 .. t] from the zero vector of length
    [reservoir_size]. *)
Theorem forward_pass_unrolls (net : EchoStateNetwork) (input_sequence : list F) :
  tensor_shapes net -> forward_pass_claim net input_sequence.
Proof.
  intros Hts. pose proof Hts as (Hsh & _ & _).
  destruct (@train_loop_total net input_sequence Hsh
              (torch_zeros (reservoir_size net)) [])
    as (s & states & E).
  { apply repeat_length. }
  pose proof E as E'. apply train_loop_unrolled in E'.
  destruct E' as (new & Hst & Hlen & Hnth).
  simpl in Hst. subst states.
  exists new. unfold run_states. rewrite E. cbn [rbind snd].
  split; [reflexivity|]. split; [exact Hlen|].
  intros t Ht. specialize (Hnth t Ht).
  rewrite (@unroll_unrolled_from net Hts) in Hnth by apply repeat_length.
  injection Hnth as <-. reflexivity.
Qed.

(** Without the scalar-input shape the first product [Win @ u] is
    refused: the loop raises at its first step. *)
Lemma forward_pass_needs_scalar_input (net : EchoStateNetwork) (x : F)
  (input_sequence : list F) :
  ncols (Win net) <> 1%nat ->
  run_states net (x :: input_sequence) = Raise RuntimeError.
Proof.
  intros H. unfold run_states. cbn [for_each].
  unfold train_loop_body at 1, reservoir_step, matvec. cbn [fst snd length].
  destruct (Nat.eqb_spec (ncols (Win net)) 1) as [E|_]; [contradiction|].
  reflexivity.
Qed.

Lemma reservoir_step_tanh (P : F -> Prop) (net : EchoStateNetwork)
  (s s' : list F) (x : F) :
  (forall y, P (ftanh y)) -> reservoir_step net s x = Ok s' -> Forall P s'.
Proof.
  intros HP H. unfold reservoir_step in H.
  apply rbind_Ok in H. destruct H as (a & _ & H).
  apply rbind_Ok in H. destruct H as (b & _ & H).
  apply rbind_Ok in H. destruct H as (c & _ & H).
  injection H as <-. apply Forall_forall. intros y Hy.
  apply in_map_iff in Hy. destruct Hy as (z & <- & _). apply HP.
Qed.

Lemma train_loop_tanh (P : F -> Prop) (net : EchoStateNetwork) (data : list F) :
  (forall y, P (ftanh y)) ->
  forall (s0 : list F) (acc : list (list F)) (s : list F)
         (states : list (list F)),
    for_each (train_loop_body net) data (s0, acc) = Ok (s, states) ->
    Forall (Forall P) acc -> Forall (Forall P) states.
Proof.
  intros HP. induction data as [|x data IH]; intros s0 acc s states H Hacc.
  - simpl in H. injection H as <- <-. exact Hacc.
  - cbn [for_each] in H. apply rbind_Ok in H. destruct H as ([s1 acc1] & Hb & H).
    unfold train_loop_body in Hb. apply rbind_Ok in Hb.
    destruct Hb as (s1' & Hs & Hb). cbn [fst snd] in *.
    injection Hb as -> <-.
    apply IH in H; [exact H|].
    apply Forall_app. split; [exact Hacc|].
    constructor; [|constructor]. eapply reservoir_step_tanh; eauto.
Qed.

(** C5: for every [Win], [W] and input sequence, every component of
    every state of the trajectory is a value that [tanh] returned.  So the
    components lie in the closed interval [-1, 1] in an arithmetic whose
    [tanh] returns values of [-1, 1], and strictly inside (-1, 1) in an
    arithmetic whose [tanh] does. *)
Theorem states_within_tanh_range (net : EchoStateNetwork)
  (input_sequence : list F) (traj : list (list F)) :
  run_states net input_sequence = Ok traj ->
  Forall (Forall tanh_output) traj /\
  ((forall y : F, in_closed_unit (ftanh y)) ->
   Forall (Forall in_closed_unit) traj) /\
  ((forall y : F, in_open_unit (ftanh y)) ->
   Forall (Forall in_open_unit) traj).
Proof.
  intros H. unfold run_states in H.
  apply rbind_Ok in H. destruct H as ([s states] & E & H).
  injection H as <-. cbn [snd].
  assert (Hall : forall P : F -> Prop,
             (forall y, P (ftanh y)) -> Forall (Forall P) states).
  { intros P HP. eapply train_loop_tanh; [exact HP|exact E|constructor]. }
  split; [|split]; try apply Hall.
  intros y. exists y. reflexivity.
Qed.

(** C7: two runs of the state loop on machines whose networks hold the
    same [Win] and the same [W] (of the data model's shape) return the same
    trajectory for the same input, whatever the generators, the estimators
    and the rest of the two machines are. *)
Theorem forward_pass_deterministic (m1 m2 : Machine) (input_sequence : list F) :
  Win (self m1) = Win (self m2) ->
  W (self m1) = W (self m2) ->
  length (rows (W (self m1))) = reservoir_size (self m1) ->
  length (rows (W (self m2))) = reservoir_size (self m2) ->
  run_states (self m1) input_sequence = run_states (self m2) input_sequence.
Proof.
  intros HWin HW H1 H2.
  assert (Hrs : reservoir_size (self m1) = reservoir_size (self m2)).
  { rewrite <- H1, <- H2, HW. reflexivity. }
  unfold run_states. rewrite Hrs.
  rewrite (for_each_ext (train_loop_body (self m1)) (train_loop_body (self m2)));
    [reflexivity|].
  intros s x. unfold train_loop_body, reservoir_step. rewrite HWin, HW.
  reflexivity.
Qed.

End ForwardPass.

(** ** Statements on the machine *)

Section Statements.

Context {F : Type} {FF : Float F} {TT : Torch F} {SK : Sklearn F}.

Lemma bind_Ok {A B : Type} (c : Py A) (k : A -> Py B) (m m' : Machine) (b : B) :
  bind c k m = (Ok b, m') ->
  exists a m1, c m = (Ok a, m1) /\ k a m1 = (Ok b, m').
Proof.
  unfold bind. destruct (c m) as [[a|e] m1]; intros H; [eauto|discriminate].
Qed.

Lemma lift_Ok {A : Type} (r : result A) (m m' : Machine) (a : A) :
  lift r m = (Ok a, m') -> r = Ok a /\ m' = m.
Proof. unfold lift. intros H. injection H as -> ->. auto. Qed.

Lemma only_readout_changed_refl (m : Machine) : only_readout_changed m m.
Proof. repeat split. Qed.

Lemma only_readout_changed_trans (m1 m2 m3 : Machine) :
  only_readout_changed m1 m2 -> only_readout_changed m2 m3 ->
  only_readout_changed m1 m3.
Proof.
  unfold only_readout_changed. intros H1 H2.
  repeat match goal with H : _ /\ _ |- _ => destruct H end.
  repeat split; congruence.
Qed.

Lemma keeps_weights_bind {A B : Type} (c : Py A) (k : A -> Py B) :
  keeps_weights c -> (forall a, keeps_weights (k a)) -> keeps_weights (bind c k).
Proof.
  intros Hc Hk m. unfold bind. specialize (Hc m).
  destruct (c m) as [[a|e] m1]; cbn [snd] in *; [|exact Hc].
  eapply only_readout_changed_trans; [exact Hc|apply Hk].
Qed.

Lemma keeps_weights_gets {A : Type} (f : Machine -> A) : keeps_weights (gets f).
Proof. intros m. apply only_readout_changed_refl. Qed.

Lemma keeps_weights_lift {A : Type} (r : result A) : keeps_weights (lift r).
Proof. intros m. apply only_readout_changed_refl. Qed.

Lemma keeps_weights_ret {A : Type} (a : A) : keeps_weights (ret a).
Proof. intros m. apply only_readout_changed_refl. Qed.

Lemma keeps_weights_set_readout (r : Ridge) : keeps_weights (modify (set_readout r)).
Proof. intros m. repeat split. Qed.

(** C9: [train] leaves [Win], [W], the five hyperparameters (and the
    generators and the output) as they were, on every input and whether it
    returns or raises; only the estimator may differ. *)
Theorem train_only_changes_readout (train_data target_data : list F)
  (m : Machine) :
  only_readout_changed m (snd (train train_data target_data m)).
Proof.
  revert m. change (keeps_weights (train train_data target_data)).
  unfold train, readout_fit, readout_predict.
  repeat first
    [ apply keeps_weights_bind; [|intros ?]
    | apply keeps_weights_gets
    | apply keeps_weights_lift
    | apply keeps_weights_ret
    | apply keeps_weights_set_readout ].
Qed.

(** [initialize_weights] in one step: the two draws, then the division by
    [rhoW] and the multiplication, whatever [rhoW] is; the only exception
    is the one of [rho]. *)
Lemma initialize_weights_unfold (m : Machine) :
  initialize_weights m =
  match rho (drawn_W m) with
  | Ok rhoW =>
      (Ok tt,
       with_weights (drawn_Win m)
         (mscale (fdiv (spectral_radius (self m)) rhoW) (drawn_W m)) m)
  | Raise e => (Raise e, with_weights (drawn_Win m) (drawn_W m) m)
  end.
Proof.
  unfold with_weights, initialize_weights, adjust_spectral_radius, torch_rand,
    bind, gets, modify, lift, drawn_Win, drawn_W, generator_after_W,
    generator_after_Win.
  destruct m as [s g ns out]. cbn [self generator].
  destruct (rand g (reservoir_size s) (input_dim s)) as [f1 g1] eqn:E1.
  cbn [set_generator set_Win set_W self generator fst snd reservoir_size
       input_dim numpy_seed stdout W].
  destruct (rand g1 (reservoir_size s) (reservoir_size s)) as [f2 g2] eqn:E2.
  cbn [set_generator set_Win set_W self generator fst snd reservoir_size
       input_dim numpy_seed stdout W spectral_radius].
  destruct (rho (times2_minus1 (tabulate (reservoir_size s) (reservoir_size s) f2)));
    reflexivity.
Qed.

Lemma tabulate_well_shaped (r c : nat) (f : nat -> nat -> F) :
  well_shaped (tabulate r c f).
Proof.
  unfold well_shaped, tabulate. cbn [rows nrows ncols]. split.
  - now rewrite length_map, length_seq.
  - apply Forall_forall. intros row Hrow. apply in_map_iff in Hrow.
    destruct Hrow as (i & <- & _). now rewrite length_map, length_seq.
Qed.

Lemma mmap_well_shaped (f : F -> F) (M : matrix F) :
  well_shaped M -> well_shaped (mmap f M).
Proof.
  unfold well_shaped, mmap. cbn [rows nrows ncols]. intros [Hr Hc]. split.
  - now rewrite length_map.
  - apply Forall_forall. intros row Hrow. apply in_map_iff in Hrow.
    destruct Hrow as (row0 & <- & Hin). rewrite length_map.
    rewrite Forall_forall in Hc. now apply Hc.
Qed.

(** After [initialize_weights] on a network with a scalar input, the
    weights have the shapes of the data model. *)
Lemma initialize_weights_shapes (m m' : Machine) :
  initialize_weights m = (Ok tt, m') ->
  input_dim (self m) = 1%nat ->
  forward_shapes (self m') /\
  well_shaped (Win (self m')) /\ well_shaped (W (self m')).
Proof.
  rewrite initialize_weights_unfold. intros H Hdim.
  destruct (rho (drawn_W m)) as [rhoW|e]; [|discriminate].
  injection H as <-.
  assert (HWin : well_shaped (drawn_Win m)).
  { apply mmap_well_shaped, tabulate_well_shaped. }
  assert (HW : well_shaped
                 (mscale (fdiv (spectral_radius (self m)) rhoW) (drawn_W m))).
  { apply mmap_well_shaped, mmap_well_shaped, tabulate_well_shaped. }
  unfold with_weights.
  cbn [set_W set_Win set_generator self Win W reservoir_size].
  split; [|split; assumption].
  destruct HWin as [HWin _]. destruct HW as [HW _].
  unfold forward_shapes. cbn [Win W reservoir_size]. rewrite HWin, HW.
  cbn. auto.
Qed.

Lemma rho_raises (M : matrix F) (e : exn) :
  nrows M = ncols M -> rho M = Raise e -> linalg_eig M = [] /\ e = ValueError.
Proof.
  intros Hsq. unfold rho, torch_linalg_eig. rewrite Hsq, Nat.eqb_refl.
  cbn [rbind]. destruct (linalg_eig M) as [|z zs]; cbn [map py_max].
  - intros H. injection H as <-. auto.
  - discriminate.
Qed.

(** C3, as amended: initialization has no guard on the spectral radius.
    Whenever [rhoW = max(abs(eigenvalues))] is computed, whatever its value
    (zero included), the call returns normally and holds the drawn [W]
    multiplied by [spectral_radius / rhoW]; the call raises only when the
    eigenvalue list is empty, with the [ValueError] of [max], and never a
    [DegenerateMatrix] error. *)
Theorem initialize_weights_unguarded (m : Machine) :
  (forall rhoW : F,
      rho (drawn_W m) = Ok rhoW ->
      initialize_weights m =
      (Ok tt,
       with_weights (drawn_Win m)
         (mscale (fdiv (spectral_radius (self m)) rhoW) (drawn_W m)) m)) /\
  (forall e : exn,
      fst (initialize_weights m) = Raise e ->
      linalg_eig (drawn_W m) = [] /\ e = ValueError) /\
  fst (initialize_weights m) <> Raise DegenerateMatrix.
Proof.
  assert (Hraise : forall e, fst (initialize_weights m) = Raise e ->
                             linalg_eig (drawn_W m) = [] /\ e = ValueError).
  { intros e. rewrite initialize_weights_unfold.
    destruct (rho (drawn_W m)) as [r|e'] eqn:E; cbn [fst]; [discriminate|].
    intros H. injection H as <-. apply rho_raises in E; [exact E|reflexivity]. }
  split; [|split].
  - intros rhoW E. rewrite initialize_weights_unfold, E. reflexivity.
  - exact Hraise.
  - intros H. apply Hraise in H. destruct H as [_ H]. discriminate.
Qed.

Lemma train_Ok (data target : list F) (m m' : Machine) (p : list F) :
  train data target m = (Ok p, m') ->
  exists X est,
    run_states (self m) data = Ok X /\
    fit (readout (self m)) X target = Ok est /\
    predict est X = Ok p /\
    m' = set_readout est m.
Proof.
  unfold train, readout_fit, readout_predict, bind, gets, lift, modify, ret.
  destruct (run_states (self m) data) as [X|e] eqn:EX; [|discriminate].
  destruct (fit (readout (self m)) X target) as [est|e] eqn:Efit; [|discriminate].
  cbn [set_readout self readout].
  destruct (predict est X) as [q|e] eqn:E; [|discriminate].
  intros H. injection H as <- <-. exists X, est.
  repeat split; try assumption; reflexivity.
Qed.

Lemma trial_body_Ok (train_data target_data test_data test_target : list F)
  (num_trials trial : nat) (vars vars' : list F * list F) (m m' : Machine) :
  trial_body train_data target_data test_data test_target num_trials
             vars trial m = (Ok vars', m') ->
  exists (m2 : Machine) (mse test_mse : F),
    vars' = (fst vars ++ [mse], snd vars ++ [test_mse]) /\
    before_test_evaluation train_data target_data trial m m2 /\
    refit_test_mse test_data test_target m2 test_mse.
Proof.
  unfold trial_body. intros H.
  apply bind_Ok in H. destruct H as ([] & ma & Ha & H).
  apply bind_Ok in H. destruct H as ([] & mb & Hb & H).
  apply bind_Ok in H. destruct H as ([] & m1 & Hinit & H).
  apply bind_Ok in H. destruct H as (p & m2 & Htrain & H).
  apply bind_Ok in H. destruct H as (mse & m2' & Hmse & H).
  apply lift_Ok in Hmse. destruct Hmse as [Hmse ->].
  apply bind_Ok in H. destruct H as (tp & m3 & Htest & H).
  apply bind_Ok in H. destruct H as (tmse & m3' & Htmse & H).
  apply lift_Ok in Htmse. destruct Htmse as [Htmse ->].
  apply bind_Ok in H. destruct H as ([] & m4 & _ & H).
  unfold ret in H. injection H as <- <-.
  unfold modify in Ha, Hb. injection Ha as <-. injection Hb as <-.
  exists m2, mse, tmse. split; [reflexivity|]. split.
  - exists m1, p. auto.
  - pose proof Htest as Ht. apply train_Ok in Ht.
    destruct Ht as (X & est & HX & Hfit & Hpred & ->).
    exists X, est, tp, (set_readout est m2). repeat split; assumption.
Qed.

Lemma trials_loop (train_data target_data test_data test_target : list F)
  (num_trials : nat) (count : nat) :
  forall (first : nat) (vars vars' : list F * list F) (m m' : Machine),
    py_for (trial_body train_data target_data test_data test_target num_trials)
           (seq first count) vars m = (Ok vars', m') ->
    exists new : list F,
      snd vars' = snd vars ++ new /\ length new = count /\
      forall i d, (i < count)%nat ->
        trial_test_result train_data target_data test_data test_target
                          (first + i) (nth i new d).
Proof.
  induction count as [|count IH]; intros first vars vars' m m' H.
  - cbn in H. unfold ret in H. injection H as <- <-.
    exists []. rewrite app_nil_r. repeat split. intros; lia.
  - cbn [seq py_for] in H. apply bind_Ok in H.
    destruct H as (vars1 & m1 & Hbody & H).
    apply trial_body_Ok in Hbody.
    destruct Hbody as (m2 & mse & tmse & -> & Hbefore & Hrefit).
    apply IH in H. destruct H as (new & Hnew & Hlen & Hall).
    cbn [snd] in Hnew.
    exists (tmse :: new). rewrite Hnew, <- app_assoc. repeat split.
    + simpl. lia.
    + intros [|i] d Hi.
      * rewrite Nat.add_0_r. exists m, m2. auto.
      * cbn [nth]. replace (first + S i)%nat with (S first + i)%nat by lia.
        destruct (Hall i d ltac:(lia)) as (m0 & m2' & Hb & Hr).
        exists m0, m2'. auto.
Qed.

(** C4: in a run of [train_esn] that returns, [test_results] has one
    entry per trial, and the entry of every trial is the error of a refit:
    on the machine of that trial after the training call,
    [train(test_data, test_target)] fits the estimator on the trajectory
    of the test input against the test target and predicts that same
    trajectory with the estimator just fitted. *)
Theorem test_evaluation_refits (train_data target_data test_data test_target
  : list F) (num_trials : nat) (m m' : Machine) (results test_results : list F) :
  train_esn train_data target_data test_data test_target num_trials m
  = (Ok (results, test_results), m') ->
  length test_results = num_trials /\
  forall i d, (i < num_trials)%nat ->
    trial_test_result train_data target_data test_data test_target
                      i (nth i test_results d).
Proof.
  unfold train_esn. intros H. apply trials_loop in H.
  destruct H as (new & Hnew & Hlen & Hall). cbn [snd app] in Hnew. subst new.
  split; [exact Hlen|]. intros i d Hi. exact (Hall i d Hi).
Qed.

End Statements.

(** ** The readout of the specification *)

Section ReadoutModelFacts.

Context {F : Type} {FF : Float F}.

(** The solver of the ridge problem: the minimiser of
    [|X b - y|^2 + alpha |b|^2], for [alpha], [X] and [y]. *)
Variable ridge_solve : F -> list (list F) -> list F -> list F.



End ReadoutModelFacts.

(** ** Eigenvalues of a real matrix *)

Section SpectrumFacts.

Local Open Scope R_scope.













Section WithTorch.

Context {TT : Torch R} {SK : Sklearn R}.



End WithTorch.

End SpectrumFacts.

(** ** The properties on the concrete machine *)

Unset Implicit Arguments.

Section Examples.

Local Open Scope R_scope.

Lemma Cmod_real (a : R) : 0 <= a -> Cmod (a, 0) = a.
Proof.
  intros Ha. unfold Cmod. cbn [fst snd].
  replace (a * a + 0 * 0) with (a * a) by ring. now apply sqrt_square.
Qed.



(** The machine [example_machine 2] draws [Win = [[0]]] and
    [W = [[1/2]]]. *)
Lemma example_drawn_W :
  drawn_W (example_machine 2)
  = Matrix 1 1 [[fsub (fmul (IZR 3 / 4) (flit 2)) (flit 1)]].
Proof. reflexivity. Qed.

Lemma example_entry : fsub (fmul (IZR 3 / 4) (flit 2)) (flit 1) = 1 / 2.
Proof. cbn [fsub fmul flit RFloat]. rewrite !Q2R_lit. lra. Qed.

Lemma example_rho : rho (drawn_W (example_machine 2)) = Ok (1 / 2).
Proof.
  rewrite example_drawn_W, example_entry.
  unfold rho, torch_linalg_eig. cbn [nrows ncols Nat.eqb rbind].
  cbn [linalg_eig CounterTorch diagonal nrows rows seq map nth py_max max_from cabs].
  rewrite Cmod_real by lra. reflexivity.
Qed.




(** The machine [example_machine 1] draws [W = [[0]]], whose spectral
    radius is zero. *)
Lemma example_rho_zero : rho (drawn_W (example_machine 1)) = Ok 0.
Proof.
  change (drawn_W (example_machine 1))
    with (Matrix 1 1 [[fsub (fmul (IZR 2 / 4) (flit 2)) (flit 1)]]).
  replace (fsub (fmul (IZR 2 / 4) (flit 2)) (flit 1)) with 0
    by (cbn [fsub fmul flit RFloat]; rewrite !Q2R_lit; lra).
  unfold rho, torch_linalg_eig. cbn [nrows ncols Nat.eqb rbind].
  cbn [linalg_eig CounterTorch diagonal nrows rows seq map nth py_max max_from cabs].
  rewrite Cmod_real by lra. reflexivity.
Qed.

(** C3, as stated, fails on the draw [W = [[0]]]: its spectral radius is
    zero, and initialization returns normally, having divided by it. *)
Lemma degenerate_guard_claim_fails : ~ degenerate_guard_claim (example_machine 1).
Proof.
  intros H. specialize (H 0 example_rho_zero). destruct H as [_ H].
  assert (E : 0 = flit 0) by (cbn [flit RFloat]; rewrite Q2R_lit; lra).
  specialize (H E).
  rewrite initialize_weights_unfold, example_rho_zero in H. discriminate.
Qed.

(** C3, as amended, on the draw [W = [[0]]]: [rhoW] is zero, the
    division is performed and initialization returns. *)
Lemma initialize_weights_unguarded_witness :
  rho (drawn_W (example_machine 1)) = Ok 0 /\
  initialize_weights (example_machine 1)
  = (Ok tt,
     with_weights (drawn_Win (example_machine 1))
       (mscale (fdiv (spectral_radius (self (example_machine 1))) 0)
               (drawn_W (example_machine 1)))
       (example_machine 1)).
Proof.
  split; [exact example_rho_zero|].
  exact (proj1 (initialize_weights_unguarded (example_machine 1))
               0 example_rho_zero).
Defined.

Lemma example_shapes : forward_shapes example_network.
Proof. repeat split. Qed.

Lemma example_two_neurons_shapes : tensor_shapes example_two_neurons.
Proof. repeat split; repeat constructor. Qed.

(** The recurrence on the example network: the state after the first
    input 1.2 is [tanh(0.6), tanh(-0.3)]. *)
Lemma example_two_neurons_first_state :
  unrolled_from example_two_neurons (firstn 1 example_input) (repeat (flit 0) 2)
  = [tanh (6 / 10); tanh (- (3 / 10))].
Proof.
  unfold example_input, example_two_neurons, unrolled_from, updated_state,
    update_at, product_at, entry.
  cbn [firstn reservoir_size seq map Win W ncols sum_of rows nth repeat].
  cbn [ftanh fadd fmul flit to_float32 RFloat]. rewrite !Q2R_lit.
  f_equal; [|f_equal]; f_equal; lra.
Qed.

(** C2 on the example network of two neurons and three inputs. *)
Lemma forward_pass_unrolls_witness :
  tensor_shapes example_two_neurons /\
  forward_pass_claim example_two_neurons example_input /\
  unrolled_from example_two_neurons (firstn 1 example_input) (repeat (flit 0) 2)
  = [tanh (6 / 10); tanh (- (3 / 10))].
Proof.
  split; [exact example_two_neurons_shapes|].
  split; [|exact example_two_neurons_first_state].
  apply (forward_pass_unrolls example_input example_two_neurons_shapes).
Defined.

Lemma tanh_in_open_unit (y : R) : in_open_unit (ftanh y).
Proof.
  unfold in_open_unit. cbn [flt flit ftanh RFloat]. rewrite !Q2R_lit.
  pose proof (tanh_range y). lra.
Qed.

Lemma binary32_literals :
  flit (Float := Binary32) (-1) = -1 /\ flit (Float := Binary32) 0 = 0 /\
  flit (Float := Binary32) 1 = 1.
Proof.
  cbn [flit Binary32].
  replace (Q2R (-1)) with (-1) by (rewrite Q2R_lit; lra).
  replace (Q2R 0) with 0 by (rewrite Q2R_lit; lra).
  replace (Q2R 1) with 1 by (rewrite Q2R_lit; lra).
  rewrite round32_m1, round32_0, round32_1. repeat split.
Qed.

(** In binary32 arithmetic [tanh] returns values of [-1, 1]. *)
Lemma binary32_tanh_closed (y : R) :
  in_closed_unit (FF := Binary32) (ftanh (Float := Binary32) y).
Proof.
  unfold in_closed_unit. destruct binary32_literals as (-> & _ & ->).
  cbn [flt ftanh Binary32].
  pose proof (round32_unit (tanh y) (tanh_range y)) as [[H1|H1] [H2|H2]];
    split; auto.
Qed.

(** The state of [saturating_network] after the input 20.0 is exactly
    1.0. *)
Lemma saturating_run :
  run_states (FF := Binary32) saturating_network [20] = Ok [[1]].
Proof.
  unfold run_states, saturating_network, train_loop_body, reservoir_step,
    matvec, vadd, dot, torch_zeros.
  cbn [for_each rbind fst snd reservoir_size Win W ncols rows length Nat.eqb
       repeat map combine fold_left app to_float32 fadd fmul ftanh Binary32].
  destruct binary32_literals as (_ & -> & _).
  rewrite round32_20, Rmult_1_l, round32_20, Rplus_0_l, round32_20.
  rewrite Rmult_0_r, round32_0, Rplus_0_l, round32_0, Rplus_0_r, round32_20.
  rewrite round32_tanh_20. reflexivity.
Qed.

(** C5 on binary32 arithmetic, where [tanh] returns values of [-1, 1]
    and the state of [saturating_network] after the input 20.0 is 1.0, and
    on real numbers, where [tanh] lies strictly inside (-1, 1). *)
Lemma states_within_tanh_range_witness :
  (run_states (FF := Binary32) saturating_network [20] = Ok [[1]] /\
   (forall y : R, in_closed_unit (FF := Binary32) (ftanh (Float := Binary32) y)) /\
   Forall (Forall (tanh_output (FF := Binary32))) [[1]] /\
   Forall (Forall (in_closed_unit (FF := Binary32))) [[1]]) /\
  ((forall y : R, in_open_unit (ftanh y)) /\
   exists traj : list (list R),
     run_states example_two_neurons example_input = Ok traj /\
     length traj = 3%nat /\
     Forall (Forall in_open_unit) traj).
Proof.
  split.
  - split; [exact saturating_run|]. split; [exact binary32_tanh_closed|].
    pose proof (states_within_tanh_range (FF := Binary32) saturating_network
                  [20] saturating_run) as (Hout & Hclosed & _).
    split; [exact Hout|exact (Hclosed binary32_tanh_closed)].
  - split; [exact tanh_in_open_unit|].
    eexists. split; [reflexivity|]. split; [reflexivity|].
    refine (proj2 (proj2 (states_within_tanh_range example_two_neurons
                            example_input _))
                  tanh_in_open_unit).
    reflexivity.
Defined.

(** The strict bound fails in binary32 arithmetic: with [Win = [[1]]] and
    the input 20.0 the state is 1.0, which is not inside (-1, 1). *)
Lemma strict_bound_claim_fails :
  ~ strict_bound_claim (FF := Binary32) saturating_network [20].
Proof.
  intros H. specialize (H [[1]] saturating_run).
  inversion H as [|s l Hs _]. inversion Hs as [|c l' Hc _].
  destruct Hc as [_ Hlt]. destruct binary32_literals as (_ & _ & E1).
  rewrite E1 in Hlt. cbn [flt Binary32] in Hlt. lra.
Qed.

(** C7 on the two example machines. *)
Lemma forward_pass_deterministic_witness :
  Win (self example_initialized) = Win (self example_other) /\
  W (self example_initialized) = W (self example_other) /\
  generator example_initialized <> generator example_other /\
  run_states (self example_initialized) example_input
  = run_states (self example_other) example_input.
Proof.
  split; [reflexivity|]. split; [reflexivity|]. split; [discriminate|].
  apply forward_pass_deterministic; reflexivity.
Defined.

(** A run of two trials on the example machine, over three training and
    three test points, returns. *)
Lemma example_run_returns :
  exists (results test_results : list R) (m' : Machine),
    train_esn example_input example_input example_input example_input 2
              (example_machine 0)
    = (Ok (results, test_results), m').
Proof.
  cbv -[Rplus Rminus Rmult Rdiv Rinv tanh sqrt IZR Q2R INR powerRZ Rgtb].
  do 3 eexists. reflexivity.
Qed.

(** C4 on the example run. *)
Lemma test_evaluation_refits_witness :
  exists (results test_results : list R) (m' : Machine),
    train_esn example_input example_input example_input example_input 2
              (example_machine 0)
    = (Ok (results, test_results), m') /\
    length test_results = 2%nat /\
    forall i d, (i < 2)%nat ->
      trial_test_result example_input example_input example_input example_input
                        i (nth i test_results d).
Proof.
  destruct example_run_returns as (results & test_results & m' & E).
  exists results, test_results, m'. split; [exact E|].
  exact (test_evaluation_refits example_input example_input example_input
           example_input 2 (example_machine 0) E).
Defined.

End Examples.

(** * Further properties *)

(** ** The Mackey-Glass generator: edges and invariants *)

Section MackeyGlassMore.

Context {F : Type} {FF : Float F}.

(** A negative length is refused by [np.zeros] with a [ValueError]. *)
Lemma mackey_glass_negative_length (T tau n : Z) (beta gamma : F) :
  (T < 0)%Z -> mackey_glass T tau n beta gamma = Raise ValueError.
Proof.
  intros H. unfold mackey_glass, np_zeros.
  destruct (Z.ltb_spec T 0); [reflexivity|lia].
Qed.

Lemma index_of_beyond (len : nat) (i : Z) :
  (Z.of_nat len <= i)%Z -> index_of len i = None.
Proof.
  intros H. unfold index_of. cbv zeta.
  destruct (Z.leb_spec 0 i), (Z.ltb_spec i (Z.of_nat len)),
    (Z.leb_spec (- Z.of_nat len) i), (Z.ltb_spec i 0);
    cbn [andb]; try reflexivity; lia.
Qed.

(** With a negative delay the loop reads [x[t - tau]] ahead of [t]: the
    steps go through while that index is inside the array and the first
    step that reads beyond it raises. *)
Lemma negative_delay_loop (T tau n : Z) (beta gamma : F) (steps : nat) :
  forall (x : list F) (k : Z),
    (tau < 0)%Z -> (1 <= k < T)%Z -> Z.of_nat (length x) = T ->
    Z.to_nat (T + tau - k) = steps ->
    for_each (mackey_glass_step tau n beta gamma) (range k T) x
    = Raise IndexError.
Proof.
  induction steps as [|steps IH]; intros x k Htau Hk Hlen Hs;
    rewrite range_cons by lia; cbn [for_each]; unfold mackey_glass_step at 1;
    (destruct (Z.geb_spec (k - tau) 0) as [_|Hneg]; [|lia]);
    rewrite (getitem_in_range x (i := k - 1)) by lia; cbn [rbind].
  - unfold getitem. rewrite index_of_beyond by lia. reflexivity.
  - rewrite (getitem_in_range x (i := k - tau)) by lia. cbn [rbind].
    rewrite setitem_in_range by lia. cbn [rbind].
    apply IH; [lia|lia|rewrite update_length; exact Hlen|lia].
Qed.

(** With a negative delay and at least two elements the generator raises
    an [IndexError]: some step reads [x[t - tau]] past the end. *)
Lemma mackey_glass_negative_delay (T tau n : Z) (beta gamma : F) :
  (2 <= T)%Z -> (tau < 0)%Z ->
  mackey_glass T tau n beta gamma = Raise IndexError.
Proof.
  intros HT Htau. unfold mackey_glass.
  destruct (np_zeros T) as [x0|e] eqn:E0.
  2:{ unfold np_zeros in E0. destruct (Z.ltb_spec T 0); [lia|discriminate]. }
  apply np_zeros_length in E0. destruct E0 as [_ Hlen].
  cbn [rbind]. rewrite setitem_in_range by lia. cbn [rbind].
  apply negative_delay_loop with (steps := Z.to_nat (T + tau - 1));
    [lia|lia|rewrite update_length; exact Hlen|reflexivity].
Qed.

(** With a delay that is not negative every step reads inside the array:
    the loop goes through and keeps the length. *)
Lemma nonnegative_delay_loop (T tau n : Z) (beta gamma : F) (steps : nat) :
  forall (x : list F) (k : Z),
    (0 <= tau)%Z -> (1 <= k <= T)%Z -> Z.of_nat (length x) = T ->
    Z.to_nat (T - k) = steps ->
    exists x',
      for_each (mackey_glass_step tau n beta gamma) (range k T) x = Ok x' /\
      Z.of_nat (length x') = T.
Proof.
  induction steps as [|steps IH]; intros x k Htau Hk Hlen Hs.
  - rewrite range_nil by lia. exists x. split; [reflexivity|exact Hlen].
  - rewrite range_cons by lia. cbn [for_each]. unfold mackey_glass_step at 1.
    destruct (Z.geb_spec (k - tau) 0) as [Hge|Hlt].
    + rewrite (getitem_in_range x (i := k - 1)) by lia. cbn [rbind].
      rewrite (getitem_in_range x (i := k - tau)) by lia. cbn [rbind].
      rewrite setitem_in_range by lia. cbn [rbind].
      apply IH; [lia|lia|rewrite update_length; exact Hlen|lia].
    + rewrite (getitem_in_range x (i := k - 1)) by lia. cbn [rbind].
      rewrite setitem_in_range by lia. cbn [rbind].
      apply IH; [lia|lia|rewrite update_length; exact Hlen|lia].
Qed.

(** X1: the generator returns a sequence exactly when the length is at
    least one and the delay is not negative or the length is one; the
    sequence returned has the length asked for. *)
Theorem mackey_glass_returns_iff (T tau n : Z) (beta gamma : F) :
  (exists x : list F,
      mackey_glass T tau n beta gamma = Ok x /\ Z.of_nat (length x) = T) <->
  ((1 <= T)%Z /\ ((0 <= tau)%Z \/ T = 1%Z)).
Proof.
  split.
  - intros (x & E & Hlen).
    destruct (Z.ltb_spec T 0) as [Hneg|Hnn].
    { rewrite mackey_glass_negative_length in E by exact Hneg. discriminate. }
    destruct (Z.eq_dec T 0) as [->|Hnz].
    { cbv in E. discriminate. }
    split; [lia|].
    destruct (Z.ltb_spec tau 0) as [Htau|Htau]; [|now left].
    destruct (Z.eq_dec T 1) as [H1|H1]; [now right|].
    rewrite mackey_glass_negative_delay in E by lia. discriminate.
  - intros [HT Hcase]. unfold mackey_glass.
    destruct (np_zeros T) as [x0|e] eqn:E0.
    2:{ unfold np_zeros in E0. destruct (Z.ltb_spec T 0); [lia|discriminate]. }
    apply np_zeros_length in E0. destruct E0 as [_ Hlen].
    cbn [rbind]. rewrite setitem_in_range by lia. cbn [rbind].
    destruct Hcase as [Htau| ->].
    + apply nonnegative_delay_loop with (steps := Z.to_nat (T - 1));
        [exact Htau|lia|rewrite update_length; exact Hlen|reflexivity].
    + rewrite range_nil by lia. cbn [for_each]. eexists.
      split; [reflexivity|]. rewrite update_length. exact Hlen.
Qed.

(** X2: the exception tells the cause: a negative length raises a
    [ValueError] (from [np.zeros]), and a negative delay with at least two
    elements raises an [IndexError] (a read past the end of the array). *)
Theorem mackey_glass_exceptions (T tau n : Z) (beta gamma : F) :
  ((T < 0)%Z -> mackey_glass T tau n beta gamma = Raise ValueError) /\
  ((2 <= T)%Z -> (tau < 0)%Z ->
   mackey_glass T tau n beta gamma = Raise IndexError).
Proof.
  split.
  - apply mackey_glass_negative_length.
  - apply mackey_glass_negative_delay.
Qed.

(** The sequence returned for [T >= 1] and [tau >= 1], with the equations
    it satisfies up to its end. *)
Lemma mackey_glass_generated (T tau n : Z) (beta gamma : F) :
  (1 <= T)%Z -> (1 <= tau)%Z ->
  exists x : list F,
    mackey_glass T tau n beta gamma = Ok x /\
    generated_up_to x T tau n beta gamma T.
Proof.
  intros HT Htau. unfold mackey_glass.
  destruct (np_zeros T) as [x0|e] eqn:E0.
  2:{ unfold np_zeros in E0. destruct (Z.ltb_spec T 0); [lia|discriminate]. }
  apply np_zeros_length in E0. destruct E0 as [_ Hlen].
  cbn [rbind]. rewrite setitem_in_range by lia. cbn [rbind].
  apply mackey_glass_loop_invariant with (steps := Z.to_nat (T - 1));
    [lia|lia|reflexivity|].
  repeat split.
  - rewrite update_length. exact Hlen.
  - unfold first_element, item. apply nth_update_same. lia.
  - intros t Ht Ht'. lia.
  - intros t Ht. lia.
Qed.

(** A property of scalars that holds of 1.2 and is kept by the delayed
    update holds of every element of the sequence. *)
Lemma mackey_glass_elements (P : F -> Prop) (T tau n : Z) (beta gamma : F)
  (x : list F) :
  (1 <= tau)%Z ->
  generated_up_to x T tau n beta gamma T ->
  P (flit (12 # 10)) ->
  (forall xp xd, P xp -> P xd -> P (delayed_update n beta gamma xp xd)) ->
  forall t : Z, (0 <= t < T)%Z -> P (item x t).
Proof.
  intros Htau (Hlen & H0 & Hw & Hr) Hinit Hstep.
  assert (Hall : forall (k : nat) (t : Z),
             (0 <= t < Z.of_nat k)%Z -> (t < T)%Z -> P (item x t)).
  { induction k as [|k IH]; intros t Ht HtT; [lia|].
    destruct (Z.eq_dec t 0) as [->|Hne].
    - unfold first_element in H0. rewrite H0. exact Hinit.
    - destruct (Z.ltb_spec t tau) as [Hlt|Hge].
      + rewrite Hw by lia. apply IH; lia.
      + rewrite Hr by lia. apply Hstep; apply IH; lia. }
  intros t Ht. apply (Hall (Z.to_nat (t + 1)) t); lia.
Qed.

(** X3: for [T >= 1] and [tau >= 1] the generator returns a sequence whose
    first [min(tau, T)] elements all equal 1.2 (the delay has not elapsed
    yet). *)
Theorem mackey_glass_warm_up_constant (T tau n : Z) (beta gamma : F) :
  (1 <= T)%Z -> (1 <= tau)%Z ->
  exists x : list F,
    mackey_glass T tau n beta gamma = Ok x /\
    forall t : Z, (0 <= t < Z.min tau T)%Z -> item x t = flit (12 # 10).
Proof.
  intros HT Htau.
  destruct (mackey_glass_generated T tau n beta gamma HT Htau)
    as (x & E & Hlen & H0 & Hw & Hr).
  exists x. split; [exact E|].
  assert (Hall : forall (k : nat) (t : Z),
             (0 <= t < Z.of_nat k)%Z -> (t < Z.min tau T)%Z ->
             item x t = flit (12 # 10)).
  { induction k as [|k IH]; intros t Ht Hmin; [lia|].
    destruct (Z.eq_dec t 0) as [->|Hne]; [exact H0|].
    rewrite Hw by lia. apply IH; lia. }
  intros t Ht. apply (Hall (Z.to_nat (t + 1)) t); lia.
Qed.

End MackeyGlassMore.

Section MackeyGlassPositive.

Local Open Scope R_scope.

(** X4: on exact real arithmetic, for [beta >= 0], [0 <= gamma < 1],
    [T >= 1] and [tau >= 1], every element of the sequence returned is
    strictly positive, for every exponent [n]. *)
Theorem mackey_glass_positive (T tau n : Z) (beta gamma : R) :
  (1 <= T)%Z -> (1 <= tau)%Z -> 0 <= beta -> 0 <= gamma < 1 ->
  exists x : list R,
    mackey_glass T tau n beta gamma = Ok x /\
    Z.of_nat (length x) = T /\
    forall t : Z, (0 <= t < T)%Z -> 0 < item x t.
Proof.
  intros HT Htau Hb Hg.
  destruct (mackey_glass_generated T tau n beta gamma HT Htau) as (x & E & Hgen).
  exists x. split; [exact E|]. split; [exact (proj1 Hgen)|].
  apply (mackey_glass_elements (fun v => 0 < v) T tau n beta gamma x Htau Hgen).
  - cbn [flit RFloat]. rewrite Q2R_lit. lra.
  - intros xp xd Hp Hd. unfold delayed_update.
    cbn [fsub fadd fdiv fmul fpow flit RFloat]. rewrite Q2R_lit.
    assert (Hpow : 0 < powerRZ xd n) by (apply powerRZ_lt; exact Hd).
    assert (Hq : 0 <= beta * xd / (1 / 1 + powerRZ xd n)).
    { apply Rmult_le_pos; [nra|]. apply Rlt_le, Rinv_0_lt_compat. lra. }
    nra.
Qed.

(** X4 on the notebook's parameters and twenty elements. *)
Lemma mackey_glass_positive_witness :
  (1 <= 20)%Z /\ (1 <= 17)%Z /\ 0 <= Q2R (2 # 10) /\ 0 <= Q2R (1 # 10) < 1 /\
  exists x : list R,
    mackey_glass 20 17 10 (Q2R (2 # 10)) (Q2R (1 # 10)) = Ok x /\
    Z.of_nat (length x) = 20%Z /\
    forall t : Z, (0 <= t < 20)%Z -> 0 < item x t.
Proof.
  assert (Hb : 0 <= Q2R (2 # 10)) by (rewrite Q2R_lit; lra).
  assert (Hg : 0 <= Q2R (1 # 10) < 1) by (rewrite Q2R_lit; lra).
  split; [lia|]. split; [lia|]. split; [exact Hb|]. split; [exact Hg|].
  apply (mackey_glass_positive 20 17 10 _ _); [lia|lia|exact Hb|exact Hg].
Defined.

End MackeyGlassPositive.

Section MackeyGlassMoreExamples.

(** X2 at the length -1, and at the delay -1 with three elements. *)
Lemma mackey_glass_exceptions_witness :
  mackey_glass (F := R) (-1) 17 10 (flit (2 # 10)) (flit (1 # 10))
  = Raise ValueError /\
  mackey_glass (F := R) 3 (-1) 10 (flit (2 # 10)) (flit (1 # 10))
  = Raise IndexError.
Proof.
  split.
  - apply (proj1 (mackey_glass_exceptions (-1) 17 10 _ _)). lia.
  - apply (proj2 (mackey_glass_exceptions 3 (-1) 10 _ _)); lia.
Defined.

(** X3 at the notebook's length and delay. *)
Lemma mackey_glass_warm_up_constant_witness :
  (1 <= 1500)%Z /\ (1 <= 17)%Z /\
  exists x : list R,
    mackey_glass 1500 17 10 (flit (2 # 10)) (flit (1 # 10)) = Ok x /\
    forall t : Z, (0 <= t < Z.min 17 1500)%Z -> item x t = flit (12 # 10).
Proof.
  split; [lia|]. split; [lia|].
  apply mackey_glass_warm_up_constant; lia.
Defined.

End MackeyGlassMoreExamples.
(** ** Weight initialization: shapes, frame, reproducibility *)

Section InitializationMore.

Context {F : Type} {FF : Float F} {TT : Torch F} {SK : Sklearn F}.

(** X5: when [initialize_weights] returns, [Win] has the shape
    [(reservoir_size, input_dim)] and [W] the shape
    [(reservoir_size, reservoir_size)], every row present and of the
    declared width. *)
Theorem initialize_weights_gives_shapes (m m' : Machine) :
  initialize_weights m = (Ok tt, m') ->
  nrows (Win (self m')) = reservoir_size (self m) /\
  ncols (Win (self m')) = input_dim (self m) /\
  nrows (W (self m')) = reservoir_size (self m) /\
  ncols (W (self m')) = reservoir_size (self m) /\
  well_shaped (Win (self m')) /\ well_shaped (W (self m')).
Proof.
  rewrite initialize_weights_unfold. intros H.
  destruct (rho (drawn_W m)) as [rhoW|e]; [|discriminate].
  injection H as <-. unfold with_weights.
  cbn [set_W set_Win set_generator self Win W].
  do 4 (split; [reflexivity|]). split.
  - apply mmap_well_shaped, tabulate_well_shaped.
  - apply mmap_well_shaped, mmap_well_shaped, tabulate_well_shaped.
Qed.

(** X6: [initialize_weights] changes [Win], [W] and the generator only:
    the hyperparameters, the estimator, the seed of NumPy and the output are
    the same afterwards, whether it returns or raises. *)
Theorem initialize_weights_frame (m : Machine) :
  only_weights_changed m (snd (initialize_weights m)).
Proof.
  rewrite initialize_weights_unfold.
  destruct (rho (drawn_W m)); repeat split.
Qed.

Lemma drawn_weights_depend_on (m1 m2 : Machine) :
  generator m1 = generator m2 ->
  reservoir_size (self m1) = reservoir_size (self m2) ->
  input_dim (self m1) = input_dim (self m2) ->
  drawn_Win m1 = drawn_Win m2 /\ drawn_W m1 = drawn_W m2 /\
  generator_after_W m1 = generator_after_W m2.
Proof.
  intros Hg Hr Hi.
  unfold drawn_Win, drawn_W, generator_after_W, generator_after_Win.
  cbv zeta. rewrite Hg, Hr, Hi. repeat split.
Qed.

(** X7: after [torch.manual_seed(seed)], what [initialize_weights] leaves
    depends on the seed and on [reservoir_size], [input_dim] and
    [spectral_radius] only: on two machines that agree on these three it
    gives the same outcome, the same [Win], the same [W] and the same
    generator, whatever the weights, estimators and generators were
    before. *)
Theorem reseeded_initialization_reproducible (seed : Z) (m1 m2 : Machine) :
  reservoir_size (self m1) = reservoir_size (self m2) ->
  input_dim (self m1) = input_dim (self m2) ->
  spectral_radius (self m1) = spectral_radius (self m2) ->
  fst (initialize_weights (set_generator (manual_seed seed) m1))
  = fst (initialize_weights (set_generator (manual_seed seed) m2)) /\
  Win (self (snd (initialize_weights (set_generator (manual_seed seed) m1))))
  = Win (self (snd (initialize_weights (set_generator (manual_seed seed) m2)))) /\
  W (self (snd (initialize_weights (set_generator (manual_seed seed) m1))))
  = W (self (snd (initialize_weights (set_generator (manual_seed seed) m2)))) /\
  generator (snd (initialize_weights (set_generator (manual_seed seed) m1)))
  = generator (snd (initialize_weights (set_generator (manual_seed seed) m2))).
Proof.
  intros Hr Hi Hs.
  destruct (drawn_weights_depend_on
              (set_generator (manual_seed seed) m1)
              (set_generator (manual_seed seed) m2))
    as (HWin & HW & Hg); [reflexivity|exact Hr|exact Hi|].
  rewrite !initialize_weights_unfold, HWin, HW.
  change (spectral_radius (self (set_generator (manual_seed seed) m1)))
    with (spectral_radius (self m1)).
  change (spectral_radius (self (set_generator (manual_seed seed) m2)))
    with (spectral_radius (self m2)).
  rewrite Hs.
  destruct (rho (drawn_W (set_generator (manual_seed seed) m2))) as [rhoW|e];
    unfold with_weights; cbn [fst snd set_W set_Win set_generator self Win W generator];
    rewrite Hg; repeat split.
Qed.

Lemma adjust_spectral_radius_unfold (m : Machine) :
  adjust_spectral_radius m =
  match rho (W (self m)) with
  | Ok rhoW =>
      (Ok tt,
       set_W (mscale (fdiv (spectral_radius (self m)) rhoW) (W (self m))) m)
  | Raise e => (Raise e, m)
  end.
Proof.
  unfold adjust_spectral_radius, bind, gets, lift, modify.
  destruct (rho (W (self m))); reflexivity.
Qed.

(** X8: [adjust_spectral_radius] on any machine: a [W] that is not square
    is refused with a [RuntimeError]; the only exceptions are that one and
    the [ValueError] of [max] on an empty eigenvalue list, and they leave
    the machine untouched; in every case only the entries of [W] may
    change, not its shape nor anything else. *)
Theorem adjust_spectral_radius_effect (m : Machine) :
  (nrows (W (self m)) <> ncols (W (self m)) ->
   adjust_spectral_radius m = (Raise RuntimeError, m)) /\
  (forall e : exn,
      fst (adjust_spectral_radius m) = Raise e ->
      snd (adjust_spectral_radius m) = m /\
      (e = RuntimeError \/ e = ValueError)) /\
  only_W_rescaled m (snd (adjust_spectral_radius m)).
Proof.
  rewrite adjust_spectral_radius_unfold. split; [|split].
  - intros H. unfold rho, torch_linalg_eig.
    destruct (Nat.eqb_spec (nrows (W (self m))) (ncols (W (self m))));
      [contradiction|reflexivity].
  - intros e. destruct (rho (W (self m))) as [rhoW|e'] eqn:E; cbn [fst snd];
      [discriminate|].
    intros H. injection H as <-. split; [reflexivity|].
    unfold rho, torch_linalg_eig in E.
    destruct (Nat.eqb (nrows (W (self m))) (ncols (W (self m)))).
    + cbn [rbind] in E. destruct (linalg_eig (W (self m))); cbn in E;
        [injection E as <-; now right|discriminate].
    + cbn [rbind] in E. injection E as <-. now left.
  - destruct (rho (W (self m))) as [rhoW|e]; cbn [snd].
    + unfold only_W_rescaled, only_weights_changed, same_hyperparameters.
      cbn [set_W self W Win generator numpy_seed stdout input_dim
           reservoir_size output_dim spectral_radius alpha readout
           mscale mmap nrows ncols rows].
      repeat split. rewrite map_map. apply map_ext. intros r.
      apply length_map.
    + repeat split.
Qed.

(** X9: when the library finds no eigenvalue for a matrix without rows,
    a network of [reservoir_size = 0] cannot be built: the constructor
    raises the [ValueError] of [max] on an empty sequence. *)
Theorem empty_reservoir_refused (input_dim output_dim : nat)
  (spectral_radius alpha : F) (g : Generator) (seed : option Z)
  (out : list line) :
  (forall M : matrix F, nrows M = 0%nat -> linalg_eig M = []) ->
  fst (EchoStateNetwork_init input_dim 0 output_dim spectral_radius alpha
                             g seed out)
  = Raise ValueError.
Proof.
  intros Heig. unfold EchoStateNetwork_init.
  rewrite initialize_weights_unfold.
  assert (E : rho (drawn_W (Mach (blank input_dim 0 output_dim spectral_radius
                                        alpha) g seed out))
              = Raise ValueError).
  { unfold rho, torch_linalg_eig.
    change (nrows (drawn_W (Mach (blank input_dim 0 output_dim spectral_radius
                                        alpha) g seed out))) with 0%nat.
    change (ncols (drawn_W (Mach (blank input_dim 0 output_dim spectral_radius
                                        alpha) g seed out))) with 0%nat.
    cbn [Nat.eqb rbind]. rewrite Heig by reflexivity. reflexivity. }
  rewrite E. reflexivity.
Qed.

End InitializationMore.
(** ** Weight initialization on real numbers *)

Section InitializationReal.

Local Open Scope R_scope.

Context {TT : Torch R} {SK : Sklearn R}.

Lemma mmap_entries (P Q : R -> Prop) (f : R -> R) (M : matrix R) :
  (forall v, Q v -> P (f v)) ->
  Forall (Forall Q) (rows M) -> Forall (Forall P) (rows (mmap f M)).
Proof.
  intros Hf HM. unfold mmap. cbn [rows].
  rewrite Forall_forall in *. intros r Hr.
  apply in_map_iff in Hr. destruct Hr as (r0 & <- & Hin).
  specialize (HM r0 Hin). rewrite Forall_forall in *. intros v Hv.
  apply in_map_iff in Hv. destruct Hv as (v0 & <- & Hin0). auto.
Qed.

Lemma tabulate_entries (Q : R -> Prop) (r c : nat) (f : nat -> nat -> R) :
  (forall i j, Q (f i j)) -> Forall (Forall Q) (rows (tabulate r c f)).
Proof.
  intros Hf. unfold tabulate. cbn [rows].
  apply Forall_forall. intros row Hrow.
  apply in_map_iff in Hrow. destruct Hrow as (i & <- & _).
  apply Forall_forall. intros v Hv.
  apply in_map_iff in Hv. destruct Hv as (j & <- & _). apply Hf.
Qed.

Lemma times2_minus1_range (v : R) :
  0 <= v < 1 -> -1 <= fsub (fmul v (flit 2)) (flit 1) < 1.
Proof.
  intros H. cbn [fsub fmul flit RFloat]. rewrite !Q2R_lit. lra.
Qed.

(** X10: on exact real arithmetic, when the two draws of [torch.rand] lie
    in [0, 1), a returning [initialize_weights] leaves every entry of [Win]
    in [-1, 1) and every entry of [W] at most [|spectral_radius / rhoW|] in
    magnitude. *)
Theorem initialized_weights_bounded (m m' : Machine) :
  (forall i j,
      0 <= fst (rand (generator m) (reservoir_size (self m))
                     (input_dim (self m))) i j < 1) ->
  (forall i j,
      0 <= fst (rand (generator_after_Win m) (reservoir_size (self m))
                     (reservoir_size (self m))) i j < 1) ->
  initialize_weights m = (Ok tt, m') ->
  exists rhoW : R,
    rho (drawn_W m) = Ok rhoW /\
    Forall (Forall (fun v => -1 <= v < 1)) (rows (Win (self m'))) /\
    Forall (Forall (fun v => Rabs v <= Rabs (spectral_radius (self m) / rhoW)))
           (rows (W (self m'))).
Proof.
  intros HWin HW. rewrite initialize_weights_unfold.
  destruct (rho (drawn_W m)) as [rhoW|e]; [|discriminate].
  intros H. injection H as <-. exists rhoW. split; [reflexivity|].
  unfold with_weights. cbn [set_W set_Win set_generator self Win W].
  split.
  - unfold drawn_Win, times2_minus1. cbv zeta.
    apply mmap_entries with (Q := fun v => 0 <= v < 1);
      [exact times2_minus1_range|].
    apply tabulate_entries. exact HWin.
  - unfold mscale, drawn_W, times2_minus1. cbv zeta.
    apply mmap_entries with (Q := fun v => -1 <= v < 1).
    + intros v Hv. cbn [fmul fdiv RFloat]. rewrite Rabs_mult.
      assert (Rabs v <= 1) by (apply Rabs_le; lra).
      pose proof (Rabs_pos (spectral_radius (self m) / rhoW)). nra.
    + apply mmap_entries with (Q := fun v => 0 <= v < 1);
        [exact times2_minus1_range|].
      apply tabulate_entries. exact HW.
Qed.




End InitializationReal.
(** ** The forward pass: shape of the features, prefixes, failures *)

Section ForwardPassMore.

Context {F : Type} {FF : Float F} {TT : Torch F} {SK : Sklearn F}.

(** A property of the state that every step keeps, on inputs that satisfy
    [Pin], holds of every state the loop appends. *)
Lemma train_loop_invariant (Inv : list F -> Prop) (Pin : F -> Prop)
  (net : EchoStateNetwork) :
  (forall s x s', Inv s -> Pin x -> reservoir_step net s x = Ok s' -> Inv s') ->
  forall (data : list F) (s0 : list F) (acc : list (list F)) (s : list F)
         (states : list (list F)),
    Inv s0 -> Forall Pin data -> Forall Inv acc ->
    for_each (train_loop_body net) data (s0, acc) = Ok (s, states) ->
    Forall Inv states.
Proof.
  intros Hstep. induction data as [|x data IH];
    intros s0 acc s states H0 Hin Hacc H.
  - simpl in H. injection H as <- <-. exact Hacc.
  - cbn [for_each] in H. apply rbind_Ok in H. destruct H as ([s1 acc1] & Hb & H).
    unfold train_loop_body in Hb. apply rbind_Ok in Hb.
    destruct Hb as (s1' & Hs & Hb). cbn [fst snd] in *.
    injection Hb as -> <-.
    inversion Hin as [|? ? Hx Hrest]; subst.
    assert (Inv s1) by (eapply Hstep; eauto).
    eapply IH; [| |  |exact H]; [assumption|assumption|].
    apply Forall_app. split; [exact Hacc|]. constructor; [assumption|constructor].
Qed.

(** X12: on a network with the shapes of the data model, the trajectory
    that [train] hands to the estimator has one row per input and
    [reservoir_size] features in every row. *)
Theorem feature_matrix_shape (net : EchoStateNetwork) (train_data : list F) :
  forward_shapes net ->
  exists X : list (list F),
    run_states net train_data = Ok X /\
    length X = length train_data /\
    Forall (fun s => length s = reservoir_size net) X.
Proof.
  intros Hsh.
  destruct (@train_loop_total F FF SK net train_data Hsh
              (torch_zeros (reservoir_size net)) [])
    as (s & states & E); [apply repeat_length|].
  pose proof E as E'. apply train_loop_unrolled in E'.
  destruct E' as (new & Hst & Hlen & _). simpl in Hst. subst states.
  exists new. unfold run_states. rewrite E. cbn [rbind snd].
  split; [reflexivity|]. split; [exact Hlen|].
  apply (train_loop_invariant (fun s => length s = reservoir_size net)
           (fun _ => True) net) with (data := train_data)
           (s0 := torch_zeros (reservoir_size net)) (acc := []) (s := s).
  - intros s1 x s1' Hl _ Hs.
    destruct (@reservoir_step_total F FF SK net s1 x Hsh Hl) as (s2 & E2 & Hl2).
    rewrite E2 in Hs. injection Hs as <-. exact Hl2.
  - apply repeat_length.
  - apply Forall_forall. intros; exact I.
  - constructor.
  - exact E.
Qed.

Lemma for_each_app {A S : Type} (body : S -> A -> result S) (xs ys : list A) :
  forall s, for_each body (xs ++ ys) s
            = rbind (for_each body xs s) (for_each body ys).
Proof.
  induction xs as [|x xs IH]; intros s; cbn [app for_each rbind];
    [reflexivity|].
  destruct (body s x); cbn [rbind]; [apply IH|reflexivity].
Qed.

(** X13: the states of the first inputs do not depend on the inputs that
    follow: when the loop returns on [xs ++ ys], it returns on [xs], and the
    trajectory of [xs] is the first [length xs] states of the longer one. *)
Theorem forward_pass_prefix (net : EchoStateNetwork) (xs ys : list F)
  (traj : list (list F)) :
  run_states net (xs ++ ys) = Ok traj ->
  run_states net xs = Ok (firstn (length xs) traj).
Proof.
  unfold run_states. intros H.
  apply rbind_Ok in H. destruct H as ([s states] & E & H).
  injection H as <-. cbn [snd].
  rewrite for_each_app in E. apply rbind_Ok in E.
  destruct E as ([s1 st1] & E1 & E2).
  rewrite E1. cbn [rbind snd].
  apply train_loop_unrolled in E1. destruct E1 as (new1 & -> & Hlen1 & _).
  apply train_loop_unrolled in E2. destruct E2 as (new2 & -> & _ & _).
  cbn [app]. rewrite <- Hlen1, firstn_app, Nat.sub_diag, firstn_all.
  cbn [firstn]. now rewrite app_nil_r.
Qed.

(** X14: when [Win] does not have exactly one column (an [input_dim]
    other than 1), [train] on a sequence that is not empty raises the
    [RuntimeError] of the product [Win @ u] at the first step, before any
    fit: the machine, its estimator included, is untouched. *)
Theorem train_needs_scalar_input (m : Machine) (x : F)
  (train_data target_data : list F) :
  ncols (Win (self m)) <> 1%nat ->
  train (x :: train_data) target_data m = (Raise RuntimeError, m).
Proof.
  intros H. unfold train, bind, gets, lift.
  rewrite (@forward_pass_needs_scalar_input F FF SK (self m) x train_data H).
  reflexivity.
Qed.

(** X15: after a returning [initialize_weights] on a network with
    [input_dim = 1], the state loop of [train] cannot fail: an exception of
    [train] is the one [fit] raises, or the one [predict] raises after the
    fit. *)
Theorem train_fails_only_in_estimator (m m1 m' : Machine)
  (train_data target_data : list F) (e : exn) :
  initialize_weights m = (Ok tt, m1) ->
  input_dim (self m) = 1%nat ->
  train train_data target_data m1 = (Raise e, m') ->
  exists X : list (list F),
    run_states (self m1) train_data = Ok X /\
    (fit (readout (self m1)) X target_data = Raise e \/
     exists est, fit (readout (self m1)) X target_data = Ok est /\
                 predict est X = Raise e).
Proof.
  intros Hinit Hdim Htrain.
  destruct (@initialize_weights_shapes F FF TT SK m m1 Hinit Hdim)
    as (Hsh & _ & _).
  destruct (@train_loop_total F FF SK (self m1) train_data Hsh
              (torch_zeros (reservoir_size (self m1))) [])
    as (s & X & E); [apply repeat_length|].
  assert (EX : run_states (self m1) train_data = Ok X).
  { unfold run_states. rewrite E. reflexivity. }
  exists X. split; [exact EX|].
  unfold train, readout_fit, readout_predict, bind, gets, lift, modify, ret
    in Htrain.
  rewrite EX in Htrain.
  destruct (fit (readout (self m1)) X target_data) as [est|e1] eqn:Efit.
  - right. exists est. split; [reflexivity|].
    cbn [set_readout self readout] in Htrain.
    destruct (predict est X) as [p|e2]; [discriminate|].
    injection Htrain as <- _. reflexivity.
  - left. injection Htrain as <- _. reflexivity.
Qed.

End ForwardPassMore.

Section ForwardPassReal.

Local Open Scope R_scope.

Context {SK : Sklearn R}.

Lemma tanh_0 : tanh 0 = 0.
Proof. unfold tanh. rewrite sinh_0, cosh_0. lra. Qed.

Lemma flit_0 : flit (F := R) 0 = 0.
Proof. cbn [flit RFloat]. rewrite Q2R_lit. lra. Qed.

Lemma dot_zero_vector (r v : list R) : Forall (fun y => y = 0) v -> dot r v = 0.
Proof.
  intros Hv. unfold dot. rewrite flit_0.
  assert (Hfold : forall (l : list (R * R)) (acc : R),
             Forall (fun p => snd p = 0) l ->
             fold_left (fun a p => fadd a (fmul (fst p) (snd p))) l acc = acc).
  { induction l as [|p l IH]; intros acc Hl; cbn [fold_left]; [reflexivity|].
    inversion Hl as [|? ? Hp Hrest]; subst. rewrite IH by assumption.
    cbn [fadd fmul RFloat]. rewrite Hp. ring. }
  apply Hfold. revert v Hv. induction r as [|a r IH]; intros [|y v] Hv;
    cbn [combine]; [constructor|constructor|constructor|].
  inversion Hv as [|? ? Hy Hrest]; subst.
  constructor; [reflexivity|apply IH; exact Hrest].
Qed.

Lemma vadd_zero (a b s : list R) :
  Forall (fun y => y = 0) a -> Forall (fun y => y = 0) b ->
  vadd a b = Ok s -> Forall (fun y => y = 0) s.
Proof.
  intros Ha Hb. unfold vadd.
  assert (Hsum : forall x y, In x a -> In y b -> fadd x y = 0).
  { intros x y Hx Hy. rewrite Forall_forall in Ha, Hb.
    rewrite (Ha x Hx), (Hb y Hy). cbn [fadd RFloat]. ring. }
  destruct (Nat.eqb (length a) (length b)).
  - intros H. injection H as <-. apply Forall_forall. intros z Hz.
    apply in_map_iff in Hz. destruct Hz as ([x y] & <- & Hin).
    cbn [fst snd]. apply Hsum;
      [eapply in_combine_l; eassumption|eapply in_combine_r; eassumption].
  - destruct a as [|x [|x' a']].
    + destruct b as [|y [|y' b']]; try discriminate.
      intros H. injection H as <-. constructor.
    + intros H. injection H as <-. apply Forall_forall. intros z Hz.
      apply in_map_iff in Hz. destruct Hz as (y & <- & Hin).
      apply Hsum; [now left|exact Hin].
    + destruct b as [|y [|y' b']]; try discriminate.
      intros H.
      assert (Hs : s = map (fun x0 => fadd x0 y) (x :: x' :: a'))
        by (injection H as <-; reflexivity).
      rewrite Hs. apply Forall_forall. intros z Hz.
      apply in_map_iff in Hz. destruct Hz as (x0 & <- & Hin).
      apply Hsum; [exact Hin|now left].
Qed.

(** X16: on exact real arithmetic the zero state is a rest state: on an
    input sequence of zeros every component of every state of the
    trajectory is zero, for every [Win] and [W]. *)
Theorem zero_input_rest_state (net : EchoStateNetwork) (input_sequence : list R)
  (traj : list (list R)) :
  Forall (fun x => x = 0) input_sequence ->
  run_states net input_sequence = Ok traj ->
  Forall (Forall (fun y => y = 0)) traj.
Proof.
  intros Hin H. unfold run_states in H.
  apply rbind_Ok in H. destruct H as ([s states] & E & H).
  injection H as <-. cbn [snd].
  apply (train_loop_invariant (Forall (fun y => y = 0)) (fun x => x = 0) net)
    with (data := input_sequence) (s0 := torch_zeros (reservoir_size net))
         (acc := []) (s := s).
  - intros s0 x s' Hs0 Hx Hstep. unfold reservoir_step in Hstep.
    apply rbind_Ok in Hstep. destruct Hstep as (a & Ea & Hstep).
    apply rbind_Ok in Hstep. destruct Hstep as (b & Eb & Hstep).
    apply rbind_Ok in Hstep. destruct Hstep as (c & Ec & Hstep).
    injection Hstep as <-.
    assert (Ha : Forall (fun y => y = 0) a).
    { unfold matvec in Ea.
      destruct (Nat.eqb (ncols (Win net)) (length [to_float32 x]));
        [|discriminate].
      injection Ea as <-. apply Forall_forall. intros z Hz.
      apply in_map_iff in Hz. destruct Hz as (r & <- & _).
      apply dot_zero_vector. constructor; [exact Hx|constructor]. }
    assert (Hb : Forall (fun y => y = 0) b).
    { unfold matvec in Eb.
      destruct (Nat.eqb (ncols (W net)) (length s0)); [|discriminate].
      injection Eb as <-. apply Forall_forall. intros z Hz.
      apply in_map_iff in Hz. destruct Hz as (r & <- & _).
      apply dot_zero_vector. exact Hs0. }
    pose proof (vadd_zero a b c Ha Hb Ec) as Hc.
    apply Forall_forall. intros z Hz.
    apply in_map_iff in Hz. destruct Hz as (y & <- & Hy).
    rewrite Forall_forall in Hc. rewrite (Hc y Hy).
    cbn [ftanh RFloat]. exact tanh_0.
  - unfold torch_zeros. apply Forall_forall. intros y Hy.
    apply repeat_spec in Hy. subst y. exact flit_0.
  - exact Hin.
  - constructor.
  - exact E.
Qed.

End ForwardPassReal.
(** ** The trial runner: output, frame, what it leaves behind *)

Section TrialRunnerMore.

Context {F : Type} {FF : Float F} {TT : Torch F} {SK : Sklearn F}.

(** A returning trial, step by step. *)
Lemma trial_body_trace (train_data target_data test_data test_target : list F)
  (num_trials trial : nat) (vars vars' : list F * list F) (m m' : Machine) :
  trial_body train_data target_data test_data test_target num_trials
             vars trial m = (Ok vars', m') ->
  exists (m1 m2 m3 : Machine) (p tp : list F) (mse test_mse : F),
    initialize_weights
      (set_numpy_seed (Z.of_nat trial)
         (set_generator (manual_seed (Z.of_nat trial)) m)) = (Ok tt, m1) /\
    train train_data target_data m1 = (Ok p, m2) /\
    mean_squared_error target_data p = Ok mse /\
    train test_data test_target m2 = (Ok tp, m3) /\
    mean_squared_error test_target tp = Ok test_mse /\
    vars' = (fst vars ++ [mse], snd vars ++ [test_mse]) /\
    m' = print (TrialLine (trial + 1) num_trials mse test_mse) m3.
Proof.
  unfold trial_body. intros H.
  apply bind_Ok in H. destruct H as ([] & ma & Ha & H).
  apply bind_Ok in H. destruct H as ([] & mb & Hb & H).
  apply bind_Ok in H. destruct H as ([] & m1 & Hinit & H).
  apply bind_Ok in H. destruct H as (p & m2 & Htrain & H).
  apply bind_Ok in H. destruct H as (mse & m2' & Hmse & H).
  apply lift_Ok in Hmse. destruct Hmse as [Hmse ->].
  apply bind_Ok in H. destruct H as (tp & m3 & Htest & H).
  apply bind_Ok in H. destruct H as (tmse & m3' & Htmse & H).
  apply lift_Ok in Htmse. destruct Htmse as [Htmse ->].
  apply bind_Ok in H. destruct H as ([] & m4 & Hprint & H).
  unfold ret in H. injection H as <- <-.
  unfold modify in Ha, Hb, Hprint.
  injection Ha as <-. injection Hb as <-. injection Hprint as <-.
  exists m1, m2, m3, p, tp, mse, tmse. repeat split; assumption.
Qed.

Lemma initialize_weights_stdout (m : Machine) :
  stdout (snd (initialize_weights m)) = stdout m.
Proof.
  rewrite initialize_weights_unfold. destruct (rho (drawn_W m)); reflexivity.
Qed.

Lemma train_Ok_stdout (data target : list F) (m m' : Machine) (p : list F) :
  train data target m = (Ok p, m') -> stdout m' = stdout m.
Proof.
  intros H. apply train_Ok in H. destruct H as (X & est & _ & _ & _ & ->).
  reflexivity.
Qed.

Lemma trial_lines_app (first n : nat) (r1 t1 r2 t2 : list F) :
  length r1 = length t1 ->
  trial_lines first n (r1 ++ r2) (t1 ++ t2)
  = trial_lines first n r1 t1 ++ trial_lines (first + length r1) n r2 t2.
Proof.
  revert first t1. induction r1 as [|a r1 IH]; intros first [|b t1] Hlen;
    try discriminate.
  - cbn [app trial_lines length]. now rewrite Nat.add_0_r.
  - cbn [app trial_lines length]. rewrite IH by (simpl in Hlen; lia).
    cbn [app]. do 3 f_equal. lia.
Qed.

Lemma trials_loop_output (train_data target_data test_data test_target : list F)
  (num_trials : nat) (count : nat) :
  forall (first : nat) (vars vars' : list F * list F) (m m' : Machine),
    py_for (trial_body train_data target_data test_data test_target num_trials)
           (seq first count) vars m = (Ok vars', m') ->
    exists new_results new_test : list F,
      fst vars' = fst vars ++ new_results /\
      snd vars' = snd vars ++ new_test /\
      length new_results = count /\ length new_test = count /\
      stdout m' = stdout m ++ trial_lines first num_trials new_results new_test.
Proof.
  induction count as [|count IH]; intros first vars vars' m m' H.
  - cbn in H. unfold ret in H. injection H as <- <-.
    exists [], []. rewrite !app_nil_r. repeat split.
  - cbn [seq py_for] in H. apply bind_Ok in H.
    destruct H as (vars1 & ma & Hbody & H).
    apply trial_body_trace in Hbody.
    destruct Hbody as (m1 & m2 & m3 & p & tp & mse & tmse & Hinit & Htrain
                       & _ & Htest & _ & -> & ->).
    apply IH in H. destruct H as (nr & nt & Hr & Ht & Hlr & Hlt & Hout).
    cbn [fst snd] in Hr, Ht.
    exists (mse :: nr), (tmse :: nt).
    rewrite Hr, Ht, <- !app_assoc. cbn [app length].
    repeat split; try lia.
    rewrite Hout. cbn [print stdout]. rewrite <- app_assoc. cbn [app trial_lines].
    f_equal.
    apply train_Ok_stdout in Htest. apply train_Ok_stdout in Htrain.
    rewrite Htest, Htrain.
    pose proof (initialize_weights_stdout
                  (set_numpy_seed (Z.of_nat first)
                     (set_generator (manual_seed (Z.of_nat first)) m))) as Hs.
    rewrite Hinit in Hs. exact Hs.
Qed.

(** X17: a returning [train_esn] gives one train error and one test error
    per trial and prints one line per trial, in order, after what was
    printed before: the line of trial [i] (numbered [i + 1]) carries the
    total number of trials and the two errors returned for that trial. *)
Theorem train_esn_output (train_data target_data test_data test_target : list F)
  (num_trials : nat) (m m' : Machine) (results test_results : list F) :
  train_esn train_data target_data test_data test_target num_trials m
  = (Ok (results, test_results), m') ->
  length results = num_trials /\
  length test_results = num_trials /\
  stdout m' = stdout m ++ trial_lines 0 num_trials results test_results.
Proof.
  unfold train_esn. intros H. apply trials_loop_output in H.
  destruct H as (nr & nt & Hr & Ht & Hlr & Hlt & Hout).
  cbn [fst snd app] in Hr, Ht. subst nr nt. auto.
Qed.

Lemma same_hyperparameters_refl (m : Machine) : same_hyperparameters m m.
Proof. repeat split. Qed.

Lemma same_hyperparameters_trans (m1 m2 m3 : Machine) :
  same_hyperparameters m1 m2 -> same_hyperparameters m2 m3 ->
  same_hyperparameters m1 m3.
Proof.
  unfold same_hyperparameters. intros H1 H2.
  repeat match goal with H : _ /\ _ |- _ => destruct H end.
  repeat split; congruence.
Qed.

Lemma keeps_hyperparameters_bind {A B : Type} (c : Py A) (k : A -> Py B) :
  keeps_hyperparameters c -> (forall a, keeps_hyperparameters (k a)) ->
  keeps_hyperparameters (bind c k).
Proof.
  intros Hc Hk m. unfold bind. specialize (Hc m).
  destruct (c m) as [[a|e] m1]; cbn [snd] in *; [|exact Hc].
  eapply same_hyperparameters_trans; [exact Hc|apply Hk].
Qed.

Lemma keeps_hyperparameters_pure {A : Type} (c : Py A) :
  (forall m, snd (c m) = m) -> keeps_hyperparameters c.
Proof. intros H m. rewrite H. apply same_hyperparameters_refl. Qed.

Lemma keeps_hyperparameters_modify (f : Machine -> Machine) :
  (forall m, same_hyperparameters m (f m)) -> keeps_hyperparameters (modify f).
Proof. intros H m. apply H. Qed.

Lemma train_keeps_hyperparameters (train_data target_data : list F) :
  keeps_hyperparameters (train train_data target_data).
Proof.
  unfold train, readout_fit, readout_predict.
  repeat first
    [ apply keeps_hyperparameters_bind; [|intros ?]
    | apply keeps_hyperparameters_pure; intros m; reflexivity
    | apply keeps_hyperparameters_modify; intros m; repeat split ].
Qed.

Lemma initialize_weights_keeps_hyperparameters :
  keeps_hyperparameters initialize_weights.
Proof.
  intros m. rewrite initialize_weights_unfold.
  destruct (rho (drawn_W m)); repeat split.
Qed.

Lemma py_for_keeps_hyperparameters {A S : Type} (body : S -> A -> Py S)
  (xs : list A) :
  (forall s x, keeps_hyperparameters (body s x)) ->
  forall s, keeps_hyperparameters (py_for body xs s).
Proof.
  intros Hbody. induction xs as [|x xs IH]; intros s; cbn [py_for].
  - apply keeps_hyperparameters_pure. intros m. reflexivity.
  - apply keeps_hyperparameters_bind; [apply Hbody|intros s'; apply IH].
Qed.

Lemma trial_body_keeps_hyperparameters
  (train_data target_data test_data test_target : list F) (num_trials : nat)
  (vars : list F * list F) (trial : nat) :
  keeps_hyperparameters
    (trial_body train_data target_data test_data test_target num_trials
                vars trial).
Proof.
  unfold trial_body.
  repeat first
    [ apply initialize_weights_keeps_hyperparameters
    | apply train_keeps_hyperparameters
    | apply keeps_hyperparameters_bind; [|intros ?]
    | apply keeps_hyperparameters_pure; intros m; reflexivity
    | apply keeps_hyperparameters_modify; intros m; repeat split ].
Qed.

(** X18: [train_esn] never changes the hyperparameters of the network:
    [input_dim], [reservoir_size], [output_dim], [spectral_radius] and
    [alpha] are the same after any number of trials, whether the run
    returns or raises. *)
Theorem train_esn_keeps_hyperparameters
  (train_data target_data test_data test_target : list F) (num_trials : nat)
  (m : Machine) :
  same_hyperparameters m
    (snd (train_esn train_data target_data test_data test_target num_trials m)).
Proof.
  revert m. change (keeps_hyperparameters
                      (train_esn train_data target_data test_data test_target
                                 num_trials)).
  unfold train_esn. apply py_for_keeps_hyperparameters.
  intros vars trial. apply trial_body_keeps_hyperparameters.
Qed.

Lemma py_for_app {A S : Type} (body : S -> A -> Py S) (xs ys : list A) :
  forall s m, py_for body (xs ++ ys) s m
              = bind (py_for body xs s) (py_for body ys) m.
Proof.
  induction xs as [|x xs IH]; intros s m; cbn [app py_for].
  - reflexivity.
  - unfold bind. destruct (body s x m) as [[s1|e] m1]; [|reflexivity].
    rewrite IH. reflexivity.
Qed.

(** X19: what a returning [train_esn] of at least one trial leaves in the
    network: the weights of the last trial and an estimator that was
    fitted on the test data, namely on the trajectory of the test input
    under those weights against the test target. *)
Theorem train_esn_leaves_test_fit
  (train_data target_data test_data test_target : list F) (num_trials : nat)
  (m m' : Machine) (results test_results : list F) :
  train_esn train_data target_data test_data test_target (S num_trials) m
  = (Ok (results, test_results), m') ->
  exists (X : list (list F)) (previous : Ridge),
    run_states (self m') test_data = Ok X /\
    fit previous X test_target = Ok (readout (self m')).
Proof.
  unfold train_esn. rewrite seq_S, py_for_app. intros H.
  apply bind_Ok in H. destruct H as (vars1 & ma & _ & H).
  cbn [py_for] in H. apply bind_Ok in H.
  destruct H as (vars2 & mb & Hbody & H).
  unfold ret in H. injection H as _ <-.
  apply trial_body_trace in Hbody.
  destruct Hbody as (m1 & m2 & m3 & p & tp & mse & tmse & _ & _ & _ & Htest
                     & _ & _ & ->).
  apply train_Ok in Htest. destruct Htest as (X & est & HX & Hfit & _ & ->).
  exists X, (readout (self m2)). split; [exact HX|exact Hfit].
Qed.

End TrialRunnerMore.
(** ** The windows, the baseline and the experiment cell *)

Section NotebookMore.

Context {F : Type} {FF : Float F} {TT : Torch F} {SK : Sklearn F}
        {LR : SklearnLinear F} {NP : Numpy F}.

Lemma slice_bound_nonneg (len : nat) (i : Z) :
  (0 <= i)%Z -> slice_bound len i = Nat.min (Z.to_nat i) len.
Proof.
  intros H. unfold slice_bound. cbv zeta.
  destruct (Z.ltb_spec i 0); lia.
Qed.

(** A slice with bounds [0 <= lo <= hi]: its length and its elements. *)
Lemma slice_nonneg (x : list F) (lo hi : Z) (d : F) :
  (0 <= lo <= hi)%Z ->
  length (slice x lo hi)
  = (Nat.min (Z.to_nat hi) (length x) - Nat.min (Z.to_nat lo) (length x))%nat /\
  forall i, (i < length (slice x lo hi))%nat ->
            nth i (slice x lo hi) d = nth (Z.to_nat lo + i) x d.
Proof.
  intros H. unfold slice. cbv zeta.
  rewrite !slice_bound_nonneg by lia.
  assert (Hlen : length (firstn (Nat.min (Z.to_nat hi) (length x)
                                 - Nat.min (Z.to_nat lo) (length x))
                                (skipn (Nat.min (Z.to_nat lo) (length x)) x))
                 = (Nat.min (Z.to_nat hi) (length x)
                    - Nat.min (Z.to_nat lo) (length x))%nat).
  { rewrite length_firstn, length_skipn. lia. }
  split; [exact Hlen|].
  intros i Hi. rewrite Hlen in Hi.
  rewrite nth_firstn.
  destruct (Nat.ltb_spec i (Nat.min (Z.to_nat hi) (length x)
                            - Nat.min (Z.to_nat lo) (length x))); [|lia].
  rewrite nth_skipn. f_equal. lia.
Qed.

(** X20: on data of at least 1500 elements the four windows have 800, 800,
    500 and 500 elements and every target is the input 200 steps ahead:
    [train_data[i] = data[i]] with [train_target[i] = data[i + 200]], and
    [test_data[i] = data[800 + i]] with [test_target[i] = data[1000 + i]]. *)
Theorem windows_of_long_data (data train_data train_target test_data test_target
  : list F) (d : F) :
  (1500 <= length data)%nat ->
  windows data = (train_data, train_target, test_data, test_target) ->
  (length train_data = 800 /\ length train_target = 800 /\
   length test_data = 500 /\ length test_target = 500)%nat /\
  (forall i, (i < 800)%nat ->
     nth i train_data d = nth i data d /\
     nth i train_target d = nth (i + 200) data d) /\
  (forall i, (i < 500)%nat ->
     nth i test_data d = nth (800 + i) data d /\
     nth i test_target d = nth (1000 + i) data d).
Proof.
  intros Hlen Hw. unfold windows in Hw.
  injection Hw as <- <- <- <-.
  destruct (slice_nonneg data 0 800 d ltac:(lia)) as [L1 N1].
  destruct (slice_nonneg data 200 1000 d ltac:(lia)) as [L2 N2].
  destruct (slice_nonneg data 800 1300 d ltac:(lia)) as [L3 N3].
  destruct (slice_nonneg data 1000 1500 d ltac:(lia)) as [L4 N4].
  assert (E1 : length (slice data 0 800) = 800%nat) by lia.
  assert (E2 : length (slice data 200 1000) = 800%nat) by lia.
  assert (E3 : length (slice data 800 1300) = 500%nat) by lia.
  assert (E4 : length (slice data 1000 1500) = 500%nat) by lia.
  split; [auto|]. split.
  - intros i Hi. rewrite N1, N2 by lia. split; f_equal; lia.
  - intros i Hi. rewrite N3, N4 by lia. split; f_equal; lia.
Qed.

(** X21: on data that is not empty and shorter than 1500 elements the
    windows do not pair up: the training input and target, or the test
    input and target, have different lengths. *)
Theorem windows_of_short_data (data train_data train_target test_data test_target
  : list F) :
  (0 < length data < 1500)%nat ->
  windows data = (train_data, train_target, test_data, test_target) ->
  length train_data <> length train_target \/
  length test_data <> length test_target.
Proof.
  intros Hlen Hw. unfold windows in Hw.
  injection Hw as <- <- <- <-.
  assert (d : F) by (destruct data; [simpl in Hlen; lia|assumption]).
  destruct (slice_nonneg data 0 800 d ltac:(lia)) as [L1 _].
  destruct (slice_nonneg data 200 1000 d ltac:(lia)) as [L2 _].
  destruct (slice_nonneg data 800 1300 d ltac:(lia)) as [L3 _].
  destruct (slice_nonneg data 1000 1500 d ltac:(lia)) as [L4 _].
  lia.
Qed.

(** X22: when [baseline_model] returns, both errors come from one model,
    fitted once on the training window: the features are one column (one
    row of one value per sample), and the test error is the error of that
    model's predictions on the test input, without any refit.  So the train
    error does not depend on the test windows. *)
Theorem baseline_fits_once (train_data target_data test_data test_target : list F)
  (train_mse test_mse : F) :
  baseline_model train_data target_data test_data test_target
  = Ok (train_mse, test_mse) ->
  (exists (model : LinearRegression) (train_predictions test_predictions : list F),
      linear_fit LinearRegression_new (reshape_column train_data) target_data
      = Ok model /\
      linear_predict model (reshape_column train_data) = Ok train_predictions /\
      linear_predict model (reshape_column test_data) = Ok test_predictions /\
      mean_squared_error target_data train_predictions = Ok train_mse /\
      mean_squared_error test_target test_predictions = Ok test_mse /\
      length (reshape_column train_data) = length train_data /\
      Forall (fun row => length row = 1%nat) (reshape_column train_data) /\
      Forall (fun row => length row = 1%nat) (reshape_column test_data)) /\
  (forall (other_data other_target : list F) (train_mse' test_mse' : F),
      baseline_model train_data target_data other_data other_target
      = Ok (train_mse', test_mse') ->
      train_mse' = train_mse).
Proof.
  unfold baseline_model. cbv zeta. intros H.
  apply rbind_Ok in H. destruct H as (model & Hfit & H).
  apply rbind_Ok in H. destruct H as (p1 & Hp1 & H).
  apply rbind_Ok in H. destruct H as (p2 & Hp2 & H).
  apply rbind_Ok in H. destruct H as (e1 & He1 & H).
  apply rbind_Ok in H. destruct H as (e2 & He2 & H).
  injection H as <- <-. split.
  - exists model, p1, p2.
    repeat (split; [assumption|]).
    unfold reshape_column. split; [apply length_map|].
    split; apply Forall_forall; intros row Hrow; apply in_map_iff in Hrow;
      destruct Hrow as (v & <- & _); reflexivity.
  - intros c' d' e1' e2'. rewrite Hfit. cbn [rbind]. rewrite Hp1. cbn [rbind].
    intros H.
    apply rbind_Ok in H. destruct H as (p2' & _ & H).
    rewrite He1 in H. cbn [rbind] in H.
    apply rbind_Ok in H. destruct H as (e2'' & _ & H).
    injection H as <- _. reflexivity.
Qed.

Lemma experiment_data_generated :
  exists data : list F,
    mackey_glass 1500 17 10 (flit (2 # 10)) (flit (1 # 10)) = Ok data /\
    length data = 1500%nat.
Proof.
  destruct (mackey_glass_generated 1500 17 10 (flit (2 # 10)) (flit (1 # 10)))
    as (data & E & Hlen & _); [lia|lia|].
  exists data. split; [exact E|]. lia.
Qed.

(** X23: the experiment cell never fails while generating its data: the
    call [mackey_glass(1500)] returns 1500 values and the cell is the rest
    of its statements on them.  When the cell returns, it gives 50 train and
    50 test errors with their means (the values of its two last lines),
    the network has the hyperparameters of the cell (1 input, 100 neurons,
    1 output, 0.9, 1e-6) and the output before those two lines is the 50
    trial lines. *)
Theorem experiment_cell_runs (g : Generator) (seed : option Z) (out : list line) :
  exists data : list F,
    mackey_glass 1500 17 10 (flit (2 # 10)) (flit (1 # 10)) = Ok data /\
    length data = 1500%nat /\
    experiment_cell g seed out = experiment_on data g seed out /\
    forall (train_results test_results : list F) (mean_train mean_test : F)
           (m' : Machine),
      experiment_cell g seed out
      = (Ok (train_results, test_results, mean_train, mean_test), m') ->
      length train_results = 50%nat /\ length test_results = 50%nat /\
      mean_train = np_mean train_results /\ mean_test = np_mean test_results /\
      same_hyperparameters
        (Mach (blank 1 100 1 (flit (9 # 10)) (flit (1 # 1000000))) g seed out)
        m' /\
      stdout m' = out ++ trial_lines 0 50 train_results test_results.
Proof.
  destruct experiment_data_generated as (data & E & Hlen).
  exists data. split; [exact E|]. split; [exact Hlen|].
  assert (Hcell : experiment_cell g seed out = experiment_on data g seed out).
  { unfold experiment_cell. rewrite E. reflexivity. }
  split; [exact Hcell|].
  intros tr te mtr mte m'. rewrite Hcell. unfold experiment_on.
  destruct (windows data) as [[[a b] c] d].
  unfold then_run, EchoStateNetwork_init.
  pose proof (initialize_weights_keeps_hyperparameters
                (Mach (blank 1 100 1 (flit (9 # 10)) (flit (1 # 1000000)))
                      g seed out)) as Hinit.
  pose proof (initialize_weights_stdout
                (Mach (blank 1 100 1 (flit (9 # 10)) (flit (1 # 1000000)))
                      g seed out)) as Hout0.
  destruct (initialize_weights
              (Mach (blank 1 100 1 (flit (9 # 10)) (flit (1 # 1000000)))
                    g seed out)) as [[[]|e] m0]; [|discriminate].
  cbn [snd] in Hinit, Hout0. intros H.
  apply bind_Ok in H. destruct H as ([r t] & m1 & Hrun & H).
  unfold ret in H. cbn [fst snd] in H. injection H as <- <- <- <- <-.
  assert (Hkeep : same_hyperparameters m0 (snd (train_esn a b c d 50 m0))).
  { unfold train_esn. apply py_for_keeps_hyperparameters.
    intros vars trial. apply trial_body_keeps_hyperparameters. }
  rewrite Hrun in Hkeep. cbn [snd] in Hkeep.
  unfold train_esn in Hrun. apply trials_loop_output in Hrun.
  destruct Hrun as (nr & nt & Hr & Ht & Hlr & Hlt & Hout).
  cbn [fst snd app] in Hr, Ht. subst nr nt.
  split; [exact Hlr|]. split; [exact Hlt|].
  split; [reflexivity|]. split; [reflexivity|].
  split.
  - eapply same_hyperparameters_trans; [exact Hinit|exact Hkeep].
  - rewrite Hout, Hout0. reflexivity.
Qed.

End NotebookMore.
(** ** The further properties on the example machines *)

Section MoreExamples.

Local Open Scope R_scope.

Ltac run_reals :=
  cbv -[Rplus Rminus Rmult Rdiv Rinv Ropp Rabs tanh sqrt IZR Q2R INR powerRZ Rgtb].

Lemma example_initialize_returns :
  initialize_weights (example_machine 2) = (Ok tt, example_initialized).
Proof.
  unfold example_initialized.
  rewrite initialize_weights_unfold, example_rho. reflexivity.
Qed.

(** X5 on the machine [example_machine 2]. *)
Lemma initialize_weights_gives_shapes_witness :
  initialize_weights (example_machine 2) = (Ok tt, example_initialized) /\
  nrows (Win (self example_initialized)) = 1%nat /\
  ncols (Win (self example_initialized)) = 1%nat /\
  nrows (W (self example_initialized)) = 1%nat /\
  ncols (W (self example_initialized)) = 1%nat /\
  well_shaped (Win (self example_initialized)) /\
  well_shaped (W (self example_initialized)).
Proof.
  split; [exact example_initialize_returns|].
  exact (initialize_weights_gives_shapes (example_machine 2) example_initialized
           example_initialize_returns).
Defined.

(** X7 on a blank machine and an initialized one, both of one neuron and
    one input, reseeded with 2. *)
Lemma reseeded_initialization_reproducible_witness :
  Win (self (example_machine 0)) <> Win (self example_initialized) /\
  fst (initialize_weights (set_generator (manual_seed 2) (example_machine 0)))
  = fst (initialize_weights (set_generator (manual_seed 2) example_initialized)) /\
  Win (self (snd (initialize_weights
                    (set_generator (manual_seed 2) (example_machine 0)))))
  = Win (self (snd (initialize_weights
                      (set_generator (manual_seed 2) example_initialized)))) /\
  W (self (snd (initialize_weights
                  (set_generator (manual_seed 2) (example_machine 0)))))
  = W (self (snd (initialize_weights
                    (set_generator (manual_seed 2) example_initialized)))) /\
  generator (snd (initialize_weights
                    (set_generator (manual_seed 2) (example_machine 0))))
  = generator (snd (initialize_weights
                      (set_generator (manual_seed 2) example_initialized))).
Proof.
  split; [discriminate|].
  apply (reseeded_initialization_reproducible 2%Z (example_machine 0)
           example_initialized); reflexivity.
Defined.

(** X9 on the example library, whose eigenvalues are the diagonal. *)
Lemma empty_reservoir_refused_witness :
  (forall M : matrix R, nrows M = 0%nat -> linalg_eig M = []) /\
  fst (EchoStateNetwork_init (TT := CounterTorch) (SK := Ridge1Sklearn)
         1 0 1 (flit (9 # 10)) (flit (1 # 1000000)) 0%Z None [])
  = Raise ValueError.
Proof.
  assert (H : forall M : matrix R, nrows M = 0%nat -> linalg_eig M = []).
  { intros M HM. cbn [linalg_eig CounterTorch]. unfold diagonal.
    rewrite HM. reflexivity. }
  split; [exact H|].
  exact (empty_reservoir_refused (TT := CounterTorch) (SK := Ridge1Sklearn)
           1 1 (flit (9 # 10)) (flit (1 # 1000000)) 0%Z None [] H).
Defined.

(** X10 on the machine [example_machine 2], whose draws are 2/4 and 3/4. *)
Lemma initialized_weights_bounded_witness :
  exists rhoW : R,
    rho (drawn_W (example_machine 2)) = Ok rhoW /\
    Forall (Forall (fun v => -1 <= v < 1)) (rows (Win (self example_initialized))) /\
    Forall (Forall (fun v =>
                      Rabs v
                      <= Rabs (spectral_radius (self (example_machine 2)) / rhoW)))
           (rows (W (self example_initialized))).
Proof.
  apply (initialized_weights_bounded (example_machine 2) example_initialized).
  - intros i j. cbn [example_machine generator rand CounterTorch fst]. lra.
  - intros i j. unfold generator_after_Win.
    cbn [example_machine generator rand CounterTorch fst snd]. 
    replace (2 + 1)%Z with 3%Z by reflexivity. lra.
  - exact example_initialize_returns.
Defined.


(** X12 on the initialized example network and three inputs. *)
Lemma feature_matrix_shape_witness :
  forward_shapes example_network /\
  exists X : list (list R),
    run_states example_network example_input = Ok X /\
    length X = length example_input /\
    Forall (fun s => length s = reservoir_size example_network) X.
Proof.
  split; [exact example_shapes|].
  exact (feature_matrix_shape example_network example_input example_shapes).
Defined.

Lemma example_trajectory (data : list R) :
  exists traj : list (list R), run_states example_network data = Ok traj.
Proof.
  unfold run_states.
  destruct (@train_loop_total R RFloat Ridge1Sklearn example_network data
              example_shapes (torch_zeros (reservoir_size example_network)) [])
    as (s & states & E); [reflexivity|].
  rewrite E. cbn [rbind snd]. eauto.
Qed.

(** X13 on the example network: the first state of three inputs is the
    state of the first input alone. *)
Lemma forward_pass_prefix_witness :
  exists traj : list (list R),
    run_states example_network ([flit (12 # 10)] ++ [flit (12 # 10); flit (11 # 10)])
    = Ok traj /\
    run_states example_network [flit (12 # 10)] = Ok (firstn 1 traj).
Proof.
  destruct (example_trajectory
              ([flit (12 # 10)] ++ [flit (12 # 10); flit (11 # 10)]))
    as (traj & E).
  exists traj. split; [exact E|].
  exact (forward_pass_prefix example_network [flit (12 # 10)]
           [flit (12 # 10); flit (11 # 10)] traj E).
Defined.

Lemma example_two_inputs_columns : ncols (Win (self example_two_inputs)) = 2%nat.
Proof.
  unfold example_two_inputs. rewrite initialize_weights_unfold.
  destruct (rho _); reflexivity.
Qed.

(** X14 on an initialized network of two inputs. *)
Lemma train_needs_scalar_input_witness :
  ncols (Win (self example_two_inputs)) <> 1%nat /\
  train (flit (12 # 10) :: [flit (12 # 10); flit (11 # 10)]) example_input
        example_two_inputs
  = (Raise RuntimeError, example_two_inputs).
Proof.
  assert (H : ncols (Win (self example_two_inputs)) <> 1%nat).
  { rewrite example_two_inputs_columns. discriminate. }
  split; [exact H|].
  exact (train_needs_scalar_input example_two_inputs (flit (12 # 10))
           [flit (12 # 10); flit (11 # 10)] example_input H).
Defined.

(** The example estimator refuses a target of another length than the
    trajectory. *)
Lemma example_train_raises :
  train example_input [] example_initialized
  = (Raise ValueError, example_initialized).
Proof. run_reals. reflexivity. Qed.

(** X15 on the initialized example machine and an empty target. *)
Lemma train_fails_only_in_estimator_witness :
  initialize_weights (example_machine 2) = (Ok tt, example_initialized) /\
  input_dim (self (example_machine 2)) = 1%nat /\
  train example_input [] example_initialized
  = (Raise ValueError, example_initialized) /\
  exists X : list (list R),
    run_states (self example_initialized) example_input = Ok X /\
    (fit (readout (self example_initialized)) X [] = Raise ValueError \/
     exists est, fit (readout (self example_initialized)) X [] = Ok est /\
                 predict est X = Raise ValueError).
Proof.
  split; [exact example_initialize_returns|]. split; [reflexivity|].
  split; [exact example_train_raises|].
  exact (train_fails_only_in_estimator (example_machine 2) example_initialized
           example_initialized example_input [] ValueError
           example_initialize_returns eq_refl example_train_raises).
Defined.

(** X16 on the example network and two zero inputs. *)
Lemma zero_input_rest_state_witness :
  exists traj : list (list R),
    Forall (fun x : R => x = 0) [0; 0] /\
    run_states example_network [0; 0] = Ok traj /\
    Forall (Forall (fun y : R => y = 0)) traj.
Proof.
  destruct (example_trajectory [0; 0]) as (traj & E).
  exists traj.
  assert (H : Forall (fun x : R => x = 0) [0; 0]) by (repeat constructor).
  split; [exact H|]. split; [exact E|].
  exact (zero_input_rest_state example_network [0; 0] traj H E).
Defined.

(** X17 on the example run of two trials. *)
Lemma train_esn_output_witness :
  exists (results test_results : list R) (m' : Machine),
    train_esn example_input example_input example_input example_input 2
              (example_machine 0)
    = (Ok (results, test_results), m') /\
    length results = 2%nat /\
    length test_results = 2%nat /\
    stdout m' = stdout (example_machine 0) ++ trial_lines 0 2 results test_results.
Proof.
  destruct example_run_returns as (results & test_results & m' & E).
  exists results, test_results, m'. split; [exact E|].
  exact (train_esn_output example_input example_input example_input
           example_input 2 (example_machine 0) m' results test_results E).
Defined.

(** X19 on the example run of two trials. *)
Lemma train_esn_leaves_test_fit_witness :
  exists (results test_results : list R) (m' : Machine),
    train_esn example_input example_input example_input example_input 2
              (example_machine 0)
    = (Ok (results, test_results), m') /\
    exists (X : list (list R)) (previous : Ridge),
      run_states (self m') example_input = Ok X /\
      fit previous X example_input = Ok (readout (self m')).
Proof.
  destruct example_run_returns as (results & test_results & m' & E).
  exists results, test_results, m'. split; [exact E|].
  exact (train_esn_leaves_test_fit example_input example_input example_input
           example_input 1 (example_machine 0) m' results test_results E).
Defined.

(** X20 on the 1500 values of the experiment. *)
Lemma windows_of_long_data_witness :
  exists data : list R,
    mackey_glass 1500 17 10 (flit (2 # 10)) (flit (1 # 10)) = Ok data /\
    (1500 <= length data)%nat /\
    (length (slice data 0 800) = 800 /\ length (slice data 200 1000) = 800 /\
     length (slice data 800 1300) = 500 /\
     length (slice data 1000 1500) = 500)%nat /\
    (forall i, (i < 800)%nat ->
       nth i (slice data 0 800) 0 = nth i data 0 /\
       nth i (slice data 200 1000) 0 = nth (i + 200) data 0) /\
    (forall i, (i < 500)%nat ->
       nth i (slice data 800 1300) 0 = nth (800 + i) data 0 /\
       nth i (slice data 1000 1500) 0 = nth (1000 + i) data 0).
Proof.
  destruct (experiment_data_generated (F := R)) as (data & E & Hlen).
  exists data. split; [exact E|].
  assert (H : (1500 <= length data)%nat) by (rewrite Hlen; apply le_n).
  split; [exact H|].
  exact (windows_of_long_data data (slice data 0 800) (slice data 200 1000)
           (slice data 800 1300) (slice data 1000 1500) 0 H eq_refl).
Defined.

(** X21 on three values. *)
Lemma windows_of_short_data_witness :
  (0 < length example_input < 1500)%nat /\
  (length (slice example_input 0 800) <> length (slice example_input 200 1000) \/
   length (slice example_input 800 1300) <> length (slice example_input 1000 1500)).
Proof.
  assert (H : (0 < length example_input < 1500)%nat).
  { unfold example_input. cbn [length]. lia. }
  split; [exact H|].
  exact (windows_of_short_data example_input (slice example_input 0 800)
           (slice example_input 200 1000) (slice example_input 800 1300)
           (slice example_input 1000 1500) H eq_refl).
Defined.

(** The baseline on the example input returns. *)
Lemma example_baseline_returns :
  exists train_mse test_mse : R,
    baseline_model (SK := Ridge1Sklearn) (LR := Ridge1Linear)
      example_input example_input example_input example_input
    = Ok (train_mse, test_mse).
Proof. run_reals. do 2 eexists. reflexivity. Qed.

(** X22 on the example input and the example linear regression. *)
Lemma baseline_fits_once_witness :
  exists (train_mse test_mse : R) (model : Ridge1)
         (train_predictions test_predictions : list R),
    baseline_model (SK := Ridge1Sklearn) (LR := Ridge1Linear)
      example_input example_input example_input example_input
    = Ok (train_mse, test_mse) /\
    linear_fit LinearRegression_new (reshape_column example_input) example_input
    = Ok model /\
    linear_predict model (reshape_column example_input) = Ok train_predictions /\
    linear_predict model (reshape_column example_input) = Ok test_predictions /\
    mean_squared_error example_input train_predictions = Ok train_mse /\
    mean_squared_error example_input test_predictions = Ok test_mse.
Proof.
  destruct example_baseline_returns as (train_mse & test_mse & E).
  destruct (baseline_fits_once (SK := Ridge1Sklearn) (LR := Ridge1Linear)
              example_input example_input example_input example_input
              train_mse test_mse E)
    as [(model & p1 & p2 & H1 & H2 & H3 & H4 & H5 & _) _].
  exists train_mse, test_mse, model, p1, p2.
  repeat (split; [assumption|]). assumption.
Defined.

End MoreExamples.
